(** * visonic-powerlink2: a shallow embedding of [index.js]

    The client keeps a session cookie, a fail-safe flag, the last status it
    reported and the status cursor.  Every function of the source that takes
    a Node-style callback is embedded as a function that returns the
    arguments its callback is invoked with; the network is a script of
    transport answers consumed in order, and every request, log line and
    timer the code issues is appended to a trace. *)

From Stdlib Require Import String Ascii List ZArith Bool Lia.
Import ListNotations.
Open Scope list_scope.
Open Scope string_scope.

Set Implicit Arguments.

(** ** JavaScript values *)

(** The values the client manipulates.  [JsInherited k] is the object or
    function stored under the key [k] of [Object.prototype], which a property
    read on an object literal reaches through the prototype chain.  Numbers
    are the integral ones (a timeout in milliseconds). *)
Inductive JsValue : Type :=
| JsUndefined
| JsNull
| JsBool (b : bool)
| JsNumber (z : Z)
| JsString (s : string)
| JsInherited (key : string).

(** ToBoolean. *)
Definition truthy (v : JsValue) : bool :=
  match v with
  | JsUndefined | JsNull => false
  | JsBool b => b
  | JsNumber z => negb (Z.eqb z 0)
  | JsString s => negb (String.eqb s "")
  | JsInherited _ => true
  end.

(** [a || b] on values. *)
Definition js_or (a b : JsValue) : JsValue := if truthy a then a else b.

(** The names [Object.prototype] defines (ECMAScript, with Annex B), which
    every object literal inherits. *)
Definition Object_prototype : list string :=
  [ "constructor"; "hasOwnProperty"; "isPrototypeOf"; "propertyIsEnumerable";
    "toLocaleString"; "toString"; "valueOf"; "__proto__";
    "__defineGetter__"; "__defineSetter__";
    "__lookupGetter__"; "__lookupSetter__" ].

Fixpoint mem_string (k : string) (l : list string) : bool :=
  match l with
  | [] => false
  | x :: l' => String.eqb k x || mem_string k l'
  end.

(** An object literal: its own properties, in insertion order. *)
Definition JsObject := list (string * JsValue).

Fixpoint own_property (o : JsObject) (k : string) : option JsValue :=
  match o with
  | [] => None
  | (k', v) :: o' => if String.eqb k k' then Some v else own_property o' k
  end.

(** [o[k]]: an own property, else what the prototype holds, else
    [undefined]. *)
Definition js_get (o : JsObject) (k : string) : JsValue :=
  match own_property o k with
  | Some v => v
  | None => if mem_string k Object_prototype then JsInherited k else JsUndefined
  end.

(** [o[k] = v] for a key that is not yet an own property appends it; for an
    own property it overwrites in place. *)
Fixpoint js_set (o : JsObject) (k : string) (v : JsValue) : JsObject :=
  match o with
  | [] => [(k, v)]
  | (k', v') :: o' =>
      if String.eqb k k' then (k', v) :: o' else (k', v') :: js_set o' k v
  end.

(** Errors: [new Error(message)] has the name ["Error"]. *)
Record JsError : Type := mkJsError { err_name : string; err_message : string }.

Definition new_Error (msg : string) : JsError := mkJsError "Error" msg.

(** [Error.prototype.toString], which a template literal applies. *)
Definition error_toString (e : JsError) : string :=
  if String.eqb (err_name e) "" then err_message e
  else if String.eqb (err_message e) "" then err_name e
  else err_name e ++ ": " ++ err_message e.

(** An uncaught exception: the [TypeError] of reading a property of
    [undefined] or [null], tagged with the source expression that raised
    it. *)
Inductive JsException : Type :=
| TypeError (expression : string).

(** ** Regular expressions

    The patterns of the source are sequences of literal text and of [c+] or
    [c+?] over a character class, at most one of them inside the capturing
    group.  The matcher backtracks in the order the language prescribes:
    a greedy [+] tries the longest run first, a lazy one the shortest.

    Strings are sequences of 8-bit characters.  A header value reaches the
    code decoded as latin1, one 8-bit character for each of its characters.
    A body reaches it decoded as UTF-8, and the model keeps its UTF-8 bytes:
    a character above U+007F takes several of them.  The line terminators
    [.] refuses are LF, CR, U+2028 and U+2029; the last two occur in a body
    only, as the bytes E2 80 A8 and E2 80 A9. *)

(** How the subject of a pattern holds its characters. *)
Inductive encoding : Type :=
| Latin1   (* a header value *)
| Utf8.    (* a body *)

Inductive cclass : Type :=
| AnyChar                            (* [^] *)
| NotLineTerminator (e : encoding).  (* .   *)

Definition is_LF_or_CR (a : ascii) : bool :=
  Ascii.eqb a "010"%char || Ascii.eqb a "013"%char.

(** [s] opens with the UTF-8 bytes of U+2028 or U+2029. *)
Definition separator_ahead (s : string) : bool :=
  match s with
  | String a (String b (String c _)) =>
      Ascii.eqb a "226"%char && Ascii.eqb b "128"%char
      && (Ascii.eqb c "168"%char || Ascii.eqb c "169"%char)
  | _ => false
  end.

(** [s] opens with a line terminator. *)
Definition is_line_terminator (e : encoding) (s : string) : bool :=
  match s with
  | EmptyString => false
  | String a _ =>
      is_LF_or_CR a
      || match e with Utf8 => separator_ahead s | Latin1 => false end
  end.

(** The class accepts the character that opens [s]. *)
Definition accepts (c : cclass) (s : string) : bool :=
  match c with
  | AnyChar => true
  | NotLineTerminator e => negb (is_line_terminator e s)
  end.

Inductive node : Type :=
| Lit (text : string)
| Plus (greedy : bool) (c : cclass) (captured : bool).

Definition regex := list node.

(** [strip_prefix p s] is the rest of [s] after the literal [p], when [s]
    starts with it. *)
Fixpoint strip_prefix (p s : string) : option string :=
  match p with
  | EmptyString => Some s
  | String a p' =>
      match s with
      | EmptyString => None
      | String b s' => if Ascii.eqb a b then strip_prefix p' s' else None
      end
  end.

Section Plus.
Variable R : Type.
Variable c : cclass.
(** What follows the [+]: it receives the text the [+] consumed and the
    rest of the input. *)
Variable k : string -> string -> option R.

Fixpoint plus_greedy (acc s : string) : option R :=
  match s with
  | EmptyString => None
  | String a s' =>
      if accepts c s then
        let acc' := acc ++ String a "" in
        match plus_greedy acc' s' with
        | Some r => Some r
        | None => k acc' s'
        end
      else None
  end.

Fixpoint plus_lazy (acc s : string) : option R :=
  match s with
  | EmptyString => None
  | String a s' =>
      if accepts c s then
        let acc' := acc ++ String a "" in
        match k acc' s' with
        | Some r => Some r
        | None => plus_lazy acc' s'
        end
      else None
  end.
End Plus.

(** A match at the start of [s]; the result is group 1 ([None] when the
    group did not take part). *)
Fixpoint match_at (r : regex) (s : string) (g1 : option string)
  : option (option string) :=
  match r with
  | [] => Some g1
  | Lit l :: r' =>
      match strip_prefix l s with
      | Some s' => match_at r' s' g1
      | None => None
      end
  | Plus greedy c captured :: r' =>
      let k := fun txt s' => match_at r' s' (if captured then Some txt else g1) in
      if greedy then plus_greedy c k "" s else plus_lazy c k "" s
  end.

(** [s.match(r)] for a pattern without the global flag: the leftmost
    position at which the pattern matches.  [None] is [null]. *)
Fixpoint js_match (r : regex) (s : string) : option (option string) :=
  match match_at r s None with
  | Some g => Some g
  | None =>
      match s with
      | EmptyString => None
      | String _ s' => js_match r s'
      end
  end.

Definition matches (r : regex) (s : string) : bool :=
  match js_match r s with Some _ => true | None => false end.

(** The patterns of [index.js]. *)
Definition re_NOCNG : regex := [Lit "<customStatus>[NOCNG]</customStatus>"].
Definition re_index : regex :=
  [Lit "<index>"; Plus false AnyChar true; Lit "</index>"].
Definition re_status : regex :=
  [Lit "<system>"; Plus true AnyChar false; Lit "<status>";
   Plus true AnyChar true; Lit "</status>"; Plus true AnyChar false;
   Lit "</system>"].
Definition re_NOT : regex := [Lit "NOT::"].
Definition re_time_left : regex :=
  [Lit "time left:"; Plus true (NotLineTerminator Utf8) true].
Definition re_cookie : regex :=
  [Plus true (NotLineTerminator Latin1) true; Lit ";"].
Definition re_RELOGIN : regex := [Lit "[RELOGIN]"].

(** The text a template literal gives group 1 of a match. *)
Definition template (g : option string) : string :=
  match g with Some s => s | None => "undefined" end.

Definition js_of_group (g : option string) : JsValue :=
  match g with Some s => JsString s | None => JsUndefined end.

(** ** The client and its environment *)

(** [PowerLink2.STATUSES]. *)
Definition DISARMED : string := "disarmed".
Definition ARMED_HOME : string := "home".
Definition ARMED_AWAY : string := "away".
Definition EXIT_DELAY : string := "exit delay".
Definition UNKNOWN : string := "unknown".

Definition STATUSES : JsObject :=
  [ ("DISARMED", JsString DISARMED); ("ARMED_HOME", JsString ARMED_HOME);
    ("ARMED_AWAY", JsString ARMED_AWAY); ("EXIT_DELAY", JsString EXIT_DELAY);
    ("UNKNOWN", JsString UNKNOWN) ].

(** A value of [PowerLink2.STATUSES]. *)
Definition is_status (v : JsValue) : bool :=
  match v with
  | JsString s => mem_string s [DISARMED; ARMED_HOME; ARMED_AWAY; EXIT_DELAY; UNKNOWN]
  | _ => false
  end.

(** The constructor's [config] argument. *)
Module Options.
Record t : Type := mk
  { host : string; username : string; password : string;
    timeout : JsValue; debug : JsValue }.
End Options.

(** The object handed to the [request] library. *)
Module Request.
Record t : Type := mk
  { url : string; method : string; form : JsObject;
    headers : option JsObject; timeout : JsValue }.
End Request.

(** The fields of a [PowerLink2] instance.  The constructor assigns the
    first six (and [log], whose calls are the [Log] events of the trace);
    [cookie], [lastStatus] and [getStatusIndex] are [undefined] until a
    method assigns them.  No code assigns [self.config]. *)
Record Client : Type := mkClient
  { failSafe : bool;
    debug : JsValue;
    baseURL : string;
    username : string;
    password : string;
    timeout : JsValue;
    cookie : JsValue;
    lastStatus : JsValue;
    getStatusIndex : JsValue }.

Definition PowerLink2 (config : Options.t) : Client :=
  {| failSafe := false;
     debug := Options.debug config;
     baseURL := "http://" ++ Options.host config;
     username := Options.username config;
     password := Options.password config;
     timeout := js_or (Options.timeout config) (JsNumber 2500);
     cookie := JsUndefined;
     lastStatus := JsUndefined;
     getStatusIndex := JsUndefined |}.

(** What the code reads of a response: [response.headers['set-cookie']],
    an array of header values when the header is present; each value is
    latin1, one 8-bit character for each of its characters. *)
Record Response : Type := mkResponse { set_cookie : option (list string) }.

(** What the [request] library hands its callback: an error, or a response
    with its body; the body is held as its UTF-8 bytes. *)
Inductive TransportResult : Type :=
| NetError (error : JsError)
| NetOk (response : Response) (body : string).

Inductive Event : Type :=
| Sent (config : Request.t)     (* request(config, ...) *)
| Log (line : string)           (* self.log(line) *)
| SetTimeout (ms : Z).          (* setTimeout(..., ms) *)

Record World : Type := mkWorld
  { self : Client;
    network : list TransportResult;   (* the answers still to come *)
    trace : list Event }.

(** The arguments a Node-style callback is invoked with: [callback(error)]
    or [callback(null, value)]. *)
Inductive Callback (A : Type) : Type :=
| Err (error : JsError)
| Ok (value : A).
Arguments Err {A} error.
Arguments Ok {A} value.

(** How far an operation got: its callback was invoked; an exception
    escaped; a request is out and the script holds no answer for it; a timer
    is set and has not fired. *)
Inductive Completion (A : Type) : Type :=
| Called (a : A)
| Threw (e : JsException)
| AwaitingResponse
| AwaitingTimer (ms : Z).
Arguments Called {A} a.
Arguments Threw {A} e.
Arguments AwaitingResponse {A}.
Arguments AwaitingTimer {A} ms.

Definition M (A : Type) : Type := World -> Completion A * World.

Definition ret {A} (a : A) : M A := fun w => (Called a, w).

Definition bind {A B} (m : M A) (f : A -> M B) : M B :=
  fun w =>
    match m w with
    | (Called a, w') => f a w'
    | (Threw e, w') => (Threw e, w')
    | (AwaitingResponse, w') => (AwaitingResponse, w')
    | (AwaitingTimer ms, w') => (AwaitingTimer ms, w')
    end.

Notation "x <- m ;; k" := (bind m (fun x => k))
  (at level 61, m at next level, right associativity).
Notation "m ;;; k" := (bind m (fun _ => k))
  (at level 61, right associativity).

Definition throw {A} (e : JsException) : M A := fun w => (Threw e, w).

Definition get_self : M Client := fun w => (Called (self w), w).

Definition modify_self (f : Client -> Client) : M unit :=
  fun w => (Called tt, mkWorld (f (self w)) (network w) (trace w)).

Definition emit (e : Event) : M unit :=
  fun w => (Called tt, mkWorld (self w) (network w) (trace w ++ [e])%list).

Definition set_failSafe (b : bool) (c : Client) : Client :=
  mkClient b (debug c) (baseURL c) (username c) (password c) (timeout c)
           (cookie c) (lastStatus c) (getStatusIndex c).
Definition set_cookie_field (v : JsValue) (c : Client) : Client :=
  mkClient (failSafe c) (debug c) (baseURL c) (username c) (password c)
           (timeout c) v (lastStatus c) (getStatusIndex c).
Definition set_lastStatus (v : JsValue) (c : Client) : Client :=
  mkClient (failSafe c) (debug c) (baseURL c) (username c) (password c)
           (timeout c) (cookie c) v (getStatusIndex c).
Definition set_getStatusIndex (v : JsValue) (c : Client) : Client :=
  mkClient (failSafe c) (debug c) (baseURL c) (username c) (password c)
           (timeout c) (cookie c) (lastStatus c) v.

(** [request(config, callback)]: the request goes out; the callback runs
    with the next answer of the script. *)
Definition request (config : Request.t) : M TransportResult :=
  fun w =>
    let tr := (trace w ++ [Sent config])%list in
    match network w with
    | [] => (AwaitingResponse, mkWorld (self w) [] tr)
    | r :: rest => (Called r, mkWorld (self w) rest tr)
    end.

Definition log (line : string) : M unit := emit (Log line).

(** [debugLog]. *)
Definition debugLog (line : string) : M unit :=
  s <- get_self ;;
  if truthy (debug s) then log line else ret tt.

(** ** The operations *)

(** The lines the operations log. *)
Definition stale_line : string :=
  "Our cookie probably isn't valid anymore - let's get another one".

Definition no_change_line : string :=
  "Status hasn't changed– returning last status".

Definition status_debug_lines (body : string) : list string :=
  [ "Response from getRawState HTTP call:";
    "response: [object Object]";
    "body: " ++ body ].

(** The login request of [getAuthenticationCookie]. *)
Definition login_request (s : Client) : Request.t :=
  {| Request.url := baseURL s ++ "/web/ajax/login.login.ajax.php";
     Request.method := "POST";
     Request.form := [("user", JsString (username s)); ("pass", JsString (password s))];
     Request.headers := None;
     Request.timeout := timeout s |}.

(** The lines logged under [self.debug] when the login answer arrives. *)
Definition login_debug_lines (r : TransportResult) : list string :=
  "Response from getAuthenticationCookie HTTP call:" ::
  match r with
  | NetError e =>
      ["error: " ++ error_toString e; "response: undefined"; "body: undefined"]
  | NetOk _ body =>
      ["error: null"; "response: [object Object]"; "body: " ++ body]
  end.

Fixpoint log_lines (ls : list string) : M unit :=
  match ls with
  | [] => ret tt
  | l :: ls' => log l ;;; log_lines ls'
  end.

Definition when_debug (ls : list string) : M unit :=
  s <- get_self ;;
  if truthy (debug s) then log_lines ls else ret tt.

Definition nullish (v : JsValue) : bool :=
  match v with JsUndefined | JsNull => true | _ => false end.

(** [getAuthenticationCookie(callback)]. *)
Definition getAuthenticationCookie : M (Callback JsValue) :=
  s <- get_self ;;
  if failSafe s then
    ret (Err (new_Error "A previous authentication attempt failed; not continuing."))
  else if negb (nullish (cookie s)) then
    ret (Ok (cookie s))
  else
    r <- request (login_request s) ;;
    when_debug (login_debug_lines r) ;;;
    match r with
    | NetError error => ret (Err error)
    | NetOk response body =>
        if matches re_NOT body then
          modify_self (set_failSafe true) ;;;
          let errorReason :=
            match js_match re_time_left body with
            | Some lockedOut =>
                "Locked out for " ++ template lockedOut
                ++ ". Ensure username and password are correct, and restart Homebridge once the lockout time has elapsed."
            | None => "Invalid PowerLink2 username or password provided"
            end in
          log errorReason ;;;
          ret (Err (new_Error errorReason))
        else
          match set_cookie response with
          | None => throw (TypeError "response.headers['set-cookie'][0]")
          | Some [] => throw (TypeError "response.headers['set-cookie'][0].match")
          | Some (first :: _) =>
              match js_match re_cookie first with
              | None => throw (TypeError "response.headers['set-cookie'][0].match(/(.+);/)[1]")
              | Some g =>
                  modify_self (set_cookie_field (js_of_group g)) ;;;
                  debugLog ("Got authentication cookie: " ++ template g) ;;;
                  ret (Ok (js_of_group g))
              end
          end
    end.

(** One run of the body of [authenticatedRequest]: it ends with the
    callback invoked, or with the timer set that re-runs it on the same
    [config] object. *)
Inductive Attempt : Type :=
| Finished (r : Callback (Response * string))
| Retry (ms : Z) (config : Request.t).

Definition with_cookie (config : Request.t) (cookie : JsValue) : Request.t :=
  {| Request.url := Request.url config;
     Request.method := Request.method config;
     Request.form := Request.form config;
     Request.headers :=
       Some (js_set (match Request.headers config with Some h => h | None => [] end)
                    "Cookie" cookie);
     Request.timeout := Request.timeout config |}.

(** [oneConcurrent] (the one-concurrent package) runs the tasks it is given
    one at a time; the client is driven by one caller at a time here, so the
    task starts at once and its callback arguments are handed on.

    Line 219 reads [self.config.timeout] when [config.timeout] is falsy;
    [self.config] is [undefined] (the constructor stores the option as
    [self.timeout]), so the read raises. *)
Definition authenticatedRequest_once (config : Request.t) : M Attempt :=
  r <- getAuthenticationCookie ;;
  match r with
  | Err error =>
      ret (Finished (Err (new_Error ("Failed to get authentication cookie: "
                                       ++ error_toString error))))
  | Ok cookie =>
      let config := with_cookie config cookie in
      if negb (truthy (Request.timeout config)) then
        throw (TypeError "self.config.timeout")
      else
        a <- request config ;;
        match a with
        | NetError error => ret (Finished (Err error))
        | NetOk response body =>
            if String.eqb body "" || matches re_RELOGIN body then
              debugLog stale_line ;;;
              modify_self (set_cookie_field JsNull) ;;;
              emit (SetTimeout 3000) ;;;
              ret (Retry 3000 config)
            else ret (Finished (Ok (response, body)))
        end
  end.

(** [authenticatedRequest(config, callback)], followed through at most
    [timers] firings of its retry timer. *)
Fixpoint authenticatedRequest (timers : nat) (config : Request.t)
  : M (Callback (Response * string)) :=
  a <- authenticatedRequest_once config ;;
  match a with
  | Finished r => ret r
  | Retry ms config' =>
      match timers with
      | O => fun w => (AwaitingTimer ms, w)
      | S n => authenticatedRequest n config'
      end
  end.

(** The request [getStatus] builds. *)
Definition getStatus_request (s : Client) : Request.t :=
  {| Request.url := baseURL s ++ "/web/ajax/alarm.chkstatus.ajax.php";
     Request.method := "POST";
     Request.form :=
       [ ("curindex", js_or (getStatusIndex s) (JsString "0"));
         ("sesusername", JsString (username s));
         ("sesusermanager", JsString "1") ];
     Request.headers := None;
     Request.timeout := JsUndefined |}.

Definition statusStringToStatus : JsObject :=
  [ ("Ready", JsString DISARMED);
    ("NotReady", JsString DISARMED);
    ("Exit Delay", JsString EXIT_DELAY);
    ("HOME", JsString ARMED_HOME);
    ("AWAY", JsString ARMED_AWAY) ].

(** The callback [getStatus] hands to [authenticatedRequest] (lines 52 to
    93). *)
Definition getStatus_callback (r : Callback (Response * string))
  : M (Callback JsValue) :=
  match r with
  | Err error =>
      ret (Err (new_Error ("Error getting raw status: " ++ error_toString error)))
  | Ok (response, body) =>
      when_debug (status_debug_lines body) ;;;
      if matches re_NOCNG body then
        log no_change_line ;;;
        s <- get_self ;;
        ret (Ok (lastStatus s))
      else
        match js_match re_index body with
        | Some indexMatch =>
            modify_self (set_getStatusIndex (js_of_group indexMatch)) ;;;
            debugLog ("getStatusIndex: " ++ template indexMatch)
        | None => ret tt
        end ;;;
        match js_match re_status body with
        | None =>
            throw (TypeError "body.match(/<system>[^]+<status>([^]+)<\/status>[^]+<\/system>/)[1]")
        | Some statusString =>
            let status :=
              js_or (js_get statusStringToStatus (template statusString))
                    (JsString UNKNOWN) in
            modify_self (set_lastStatus status) ;;;
            ret (Ok status)
        end
  end.

(** [getStatus(callback)]. *)
Definition getStatus (timers : nat) : M (Callback JsValue) :=
  s <- get_self ;;
  r <- authenticatedRequest timers (getStatus_request s) ;;
  getStatus_callback r.

Definition stringMap : JsObject :=
  js_set (js_set (js_set [] DISARMED (JsString "Disarm"))
                 ARMED_HOME (JsString "ArmHome"))
         ARMED_AWAY (JsString "ArmAway").

(** The request [setStatus] builds for the command [statusString]. *)
Definition setStatus_request (s : Client) (statusString : JsValue) : Request.t :=
  {| Request.url := baseURL s ++ "/web/ajax/security.main.status.ajax.php";
     Request.method := "POST";
     Request.form := [("set", statusString)];
     Request.headers := None;
     Request.timeout := JsUndefined |}.

(** The callback [setStatus] hands to [authenticatedRequest]. *)
Definition setStatus_callback (r : Callback (Response * string))
  : M (Callback unit) :=
  match r with
  | Err error =>
      debugLog "Got setStatus HTTP response body: undefined" ;;;
      ret (Err error)
  | Ok (_, body) =>
      debugLog ("Got setStatus HTTP response body: " ++ body) ;;;
      ret (Ok tt)
  end.

(** [setStatus(status, callback)]. *)
Definition setStatus (timers : nat) (status : string) : M (Callback unit) :=
  let statusString := js_get stringMap status in
  if nullish statusString then
    ret (Err (new_Error ("Cannot set status to: " ++ status)))
  else
    s <- get_self ;;
    r <- authenticatedRequest timers (setStatus_request s statusString) ;;
    setStatus_callback r.

(** ** Sequences of operations *)

Inductive Operation : Type :=
| OpGetAuthenticationCookie
| OpGetStatus (timers : nat)
| OpSetStatus (timers : nat) (status : string).

(** A completion with the callback's value dropped. *)
Inductive Outcome : Type :=
| Failed (error : JsError)
| Succeeded
| Raised (e : JsException)
| Waiting.

Definition outcome {A} (c : Completion (Callback A)) : Outcome :=
  match c with
  | Called (Err e) => Failed e
  | Called (Ok _) => Succeeded
  | Threw e => Raised e
  | AwaitingResponse | AwaitingTimer _ => Waiting
  end.

Definition perform (op : Operation) (w : World) : Outcome * World :=
  match op with
  | OpGetAuthenticationCookie =>
      let (c, w') := getAuthenticationCookie w in (outcome c, w')
  | OpGetStatus n => let (c, w') := getStatus n w in (outcome c, w')
  | OpSetStatus n status => let (c, w') := setStatus n status w in (outcome c, w')
  end.

Fixpoint perform_all (ops : list Operation) (w : World) : list Outcome * World :=
  match ops with
  | [] => ([], w)
  | op :: ops' =>
      let (o, w1) := perform op w in
      let (os, w2) := perform_all ops' w1 in
      (o :: os, w2)
  end.

(** The requests of a trace, in the order they went out. *)
Fixpoint sent (tr : list Event) : list Request.t :=
  match tr with
  | [] => []
  | Sent config :: tr' => config :: sent tr'
  | _ :: tr' => sent tr'
  end.

(** The answers [getStatus]'s callback is handed, one call after another. *)
Fixpoint deliver (rs : list (Callback (Response * string))) (w : World) : World :=
  match rs with
  | [] => w
  | r :: rs' => deliver rs' (snd (getStatus_callback r w))
  end.

(** ** Text *)

Definition contains (marker s : string) : Prop :=
  exists pre post, s = pre ++ marker ++ post.

Fixpoint all_chars (p : ascii -> bool) (s : string) : bool :=
  match s with
  | EmptyString => true
  | String a s' => p a && all_chars p s'
  end.

Definition no_line_terminator (s : string) : bool :=
  all_chars (fun a => negb (is_LF_or_CR a)) s.

(** The class accepts every character of [u], where [v] follows [u]. *)
Fixpoint accepted (c : cclass) (u v : string) : bool :=
  match u with
  | EmptyString => true
  | String a u' => accepts c (String a (u' ++ v)) && accepted c u' v
  end.

Definition no_semicolon (s : string) : bool :=
  all_chars (fun a => negb (Ascii.eqb a ";"%char)) s.


(** ** Vocabulary of the statements *)

(** The events the lines [ls] leave when they are logged under
    [self.debug]. *)
Definition debug_events (s : Client) (ls : list string) : list Event :=
  if truthy (debug s) then map Log ls else [].

(** The [curindex] form field of a request. *)
Definition curindex (config : Request.t) : JsValue :=
  js_get (Request.form config) "curindex".

(** The cursor a response hands over, in the words of the specification as
    the code restricts them: the [<index>] value of a response that reached
    [getStatus]'s callback without an error and without the no-change
    marker. *)
Definition index_of_response (r : Callback (Response * string)) : option string :=
  match r with
  | Err _ => None
  | Ok (_, body) =>
      if matches re_NOCNG body then None
      else match js_match re_index body with
           | Some (Some i) => Some i
           | _ => None
           end
  end.

(** The cursor of the most recent response that handed one over. *)
Fixpoint most_recent_index (rs : list (Callback (Response * string)))
  : option string :=
  match rs with
  | [] => None
  | r :: rs' =>
      match most_recent_index rs' with
      | Some i => Some i
      | None => index_of_response r
      end
  end.

(** A client as the README constructs it, and a world around it. *)
Definition example_options : Options.t :=
  Options.mk "10.0.1.200" "Admin" "Admin123" JsUndefined JsUndefined.

Definition fresh (net : list TransportResult) : World :=
  mkWorld (PowerLink2 example_options) net [].

Definition login_ok : TransportResult :=
  NetOk (mkResponse (Some ["PowerLink=abc; path=/"])) "OK".

Definition login_rejected : TransportResult :=
  NetOk (mkResponse None) "[NOT::] time left: 5 minutes".

(** The error of a blocked [getAuthenticationCookie]. *)
Definition blocked_error : JsError :=
  new_Error "A previous authentication attempt failed; not continuing.".

(** [w'] differs from [w] by log lines at most. *)
Definition quiet (w w' : World) : Prop :=
  self w' = self w /\ network w' = network w /\ sent (trace w') = sent (trace w).

(** The world a rejected login leaves behind. *)
Definition after_rejection : World :=
  snd (getAuthenticationCookie (fresh [login_rejected])).

(** The text of [s] before its first semicolon, in the words of the
    specification ([s] itself when it has none). *)
Fixpoint before_first_semicolon (s : string) : string :=
  match s with
  | EmptyString => EmptyString
  | String a s' =>
      if Ascii.eqb a ";"%char then EmptyString
      else String a (before_first_semicolon s')
  end.

(** A login answer whose cookie carries two attributes. *)
Definition login_two_attributes : TransportResult :=
  NetOk (mkResponse (Some ["PowerLink=abc; path=/; HttpOnly"])) "OK".

(** The world a stale answer leaves: the cookie is [null], the answer is
    consumed, the request, the debug line and the timer are on the trace. *)
Definition after_stale (w1 : World) (config' : Request.t) (rest : list TransportResult)
  : World :=
  mkWorld (set_cookie_field JsNull (self w1)) rest
          (trace w1 ++ [Sent config'] ++ debug_events (self w1) [stale_line]
                 ++ [SetTimeout 3000])%list.

(** A request whose caller chose a timeout, and a script on which the
    session goes stale once. *)
Definition example_request : Request.t :=
  Request.mk "http://10.0.1.200/web/ajax/alarm.chkstatus.ajax.php" "POST"
             [("curindex", JsString "0")] None (JsNumber 1000).

Definition stale_script : list TransportResult :=
  [ login_ok;
    NetOk (mkResponse None) "[RELOGIN]";
    NetOk (mkResponse (Some ["PowerLink=def; path=/"])) "OK";
    NetOk (mkResponse None) "<reply></reply>" ].

Definition status_ready : TransportResult :=
  NetOk (mkResponse None)
        "<reply><index>12</index><system> <status>Ready</status> </system></reply>".

(** The no-change marker of the status answer. *)
Definition NOCNG_marker : string := "<customStatus>[NOCNG]</customStatus>".

(** Status answers used in the examples. *)
Definition no_change_body : string :=
  "<reply><customStatus>[NOCNG]</customStatus></reply>".

Definition inherited_body : string :=
  "<reply><system> <status>constructor</status> </system></reply>".

Definition no_change_with_index : string :=
  "<reply><index>7</index><customStatus>[NOCNG]</customStatus></reply>".

(** ** Vocabulary of the further properties *)

(** [find_first m s] splits [s] around the first occurrence of [m]. *)
Fixpoint find_first (m s : string) : option (string * string) :=
  match strip_prefix m s with
  | Some post => Some (EmptyString, post)
  | None =>
      match s with
      | EmptyString => None
      | String a s' =>
          match find_first m s' with
          | Some (pre, post) => Some (String a pre, post)
          | None => None
          end
      end
  end.

(** The longest prefix of [s] whose characters the class accepts. *)
Fixpoint take_run (c : cclass) (s : string) : string :=
  match s with
  | EmptyString => EmptyString
  | String a s' => if accepts c s then String a (take_run c s') else EmptyString
  end.

(** The rest of the line a body [s] starts: up to the first LF, CR, U+2028
    or U+2029. *)
Definition take_line (s : string) : string :=
  take_run (NotLineTerminator Utf8) s.

(** The fields the constructor reads off its [config] argument. *)
Definition same_config (c c' : Client) : Prop :=
  debug c' = debug c /\ baseURL c' = baseURL c /\ username c' = username c
  /\ password c' = password c /\ timeout c' = timeout c.

(** [m] relates the client before it runs to the client after, whatever the
    world. *)
Definition preserves {A} (R : Client -> Client -> Prop) (m : M A) : Prop :=
  forall w, R (self w) (self (snd (m w))).

(** The flag does not go from set to clear. *)
Definition failSafe_stays (c c' : Client) : Prop :=
  failSafe c = true -> failSafe c' = true.

(** The reason of a rejection that names no lockout. *)
Definition default_reason : string :=
  "Invalid PowerLink2 username or password provided".

Definition lockout_reason (time : string) : string :=
  "Locked out for " ++ time
  ++ ". Ensure username and password are correct, and restart Homebridge once the lockout time has elapsed.".

(** The reason [getAuthenticationCookie] gives for a rejection. *)
Definition rejection_reason (body : string) : string :=
  match js_match re_time_left body with
  | Some lockedOut => lockout_reason (template lockedOut)
  | None => default_reason
  end.

(** A script on which every login succeeds and every answer to the request
    is stale, [k] times over. *)
Fixpoint stale_rounds (login stale : TransportResult) (k : nat)
  : list TransportResult :=
  match k with
  | O => []
  | S k' => login :: stale :: stale_rounds login stale k'
  end.

(** What [authenticatedRequest] may send for [config] on the client [s]: the
    login request, or [config] with a cookie that is neither [undefined] nor
    [null]. *)
Definition login_or_with_cookie (s : Client) (config r : Request.t) : Prop :=
  r = login_request s \/ exists c, nullish c = false /\ r = with_cookie config c.

Definition cookie_line (g : option string) : string :=
  "Got authentication cookie: " ++ template g.

(** The world a successful login leaves. *)
Definition after_login (w : World) (r : TransportResult) (g : option string)
           (rest : list TransportResult) : World :=
  mkWorld (set_cookie_field (js_of_group g) (self w)) rest
          (trace w ++ [Sent (login_request (self w))]
                 ++ debug_events (self w) (login_debug_lines r)
                 ++ debug_events (self w) [cookie_line g])%list.

(** The world a rejected login leaves. *)
Definition after_rejected (w : World) (r : TransportResult) (reason : string)
           (rest : list TransportResult) : World :=
  mkWorld (set_failSafe true (self w)) rest
          (trace w ++ [Sent (login_request (self w))]
                 ++ debug_events (self w) (login_debug_lines r)
                 ++ [Log reason])%list.

(** The world a login answer leaves when nothing but the debug lines
    follows the request. *)
Definition after_answer (w : World) (r : TransportResult)
           (rest : list TransportResult) : World :=
  mkWorld (self w) rest
          (trace w ++ [Sent (login_request (self w))]
                 ++ debug_events (self w) (login_debug_lines r))%list.

(** The session fields, and the status fields. *)
Definition same_session (c c' : Client) : Prop :=
  cookie c' = cookie c /\ failSafe c' = failSafe c.

Definition same_status (c c' : Client) : Prop :=
  lastStatus c' = lastStatus c /\ getStatusIndex c' = getStatusIndex c.

(** The headers of a request, [{}] when it has none. *)
Definition headers_of (config : Request.t) : JsObject :=
  match Request.headers config with Some h => h | None => [] end.

(** What [authenticatedRequest] hands its callback for an answer it passes
    on. *)
Definition passed_on (r : TransportResult) : Callback (Response * string) :=
  match r with
  | NetError e => Err e
  | NetOk response body => Ok (response, body)
  end.

(** An answer [authenticatedRequest] does not take for a stale session. *)
Definition not_stale (r : TransportResult) : Prop :=
  match r with
  | NetError _ => True
  | NetOk _ body => body <> "" /\ ~ contains "[RELOGIN]" body
  end.

(** A request with headers of the caller's, and a timeout. *)
Definition request_with_headers : Request.t :=
  Request.mk "http://10.0.1.200/web/ajax/alarm.chkstatus.ajax.php" "POST"
             [("curindex", JsString "0")]
             (Some [("Accept", JsString "text/xml"); ("Cookie", JsString "old=1")])
             (JsNumber 1000).

(** The events a client with [debug] off may leave: requests, timers, and
    the two lines that go to [self.log] unconditionally. *)
Definition allowed_event (e : Event) : Prop :=
  match e with
  | Log line => line = no_change_line \/ exists body, line = rejection_reason body
  | _ => True
  end.

(** With [debug] off in [w], the run from [w] to [w'] keeps it off and
    leaves allowed events only. *)
Definition silent (w w' : World) : Prop :=
  truthy (debug (self w)) = false ->
  debug (self w') = debug (self w)
  /\ exists new, trace w' = (trace w ++ new)%list /\ Forall allowed_event new.

Definition runs_silent {A} (m : M A) : Prop := forall w, silent w (snd (m w)).

(** ** Vocabulary of the whole calls *)

(** A client that holds a status, as the callback of [getStatus] would have
    stored it. *)
Definition client_at_home : Client :=
  set_lastStatus (JsString ARMED_HOME) (PowerLink2 example_options).

Definition no_change_answer : TransportResult :=
  NetOk (mkResponse None) no_change_body.

(** [m] occurs in [s]. *)
Definition includes (m s : string) : bool :=
  match find_first m s with Some _ => true | None => false end.

(** The text between the first [<index>] of a body and the first [</index>]
    that follows at least one character later. *)
Definition index_by_search (body : string) : option string :=
  match find_first "<index>" body with
  | Some (_, String x rest) =>
      match find_first "</index>" rest with
      | Some (i, _) => Some (String x i)
      | None => None
      end
  | _ => None
  end.

(** The cursor an answer hands over, read off the text of the answer. *)
Definition handed_index (r : Callback (Response * string)) : option string :=
  match r with
  | Err _ => None
  | Ok (_, body) =>
      if includes NOCNG_marker body then None else index_by_search body
  end.

Fixpoint last_handed_index (rs : list (Callback (Response * string)))
  : option string :=
  match rs with
  | [] => None
  | r :: rs' =>
      match last_handed_index rs' with
      | Some i => Some i
      | None => handed_index r
      end
  end.

(** U+2028 in a body. *)
Definition line_separator : string :=
  String "226"%char (String "128"%char (String "168"%char "")).
Example ex_status :
  js_match re_status "<reply><index>12</index><system> <status>Ready</status> </system></reply>"
  = Some (Some "Ready").
Proof. reflexivity. Qed.

Example ex_index :
  js_match re_index "<reply><index>12</index><index>13</index></reply>" = Some (Some "12").
Proof. reflexivity. Qed.

Example ex_cookie : js_match re_cookie "PowerLink=abc; path=/; HttpOnly" = Some (Some "PowerLink=abc; path=/").
Proof. reflexivity. Qed.

Lemma append_assoc (a b c : string) : (a ++ b) ++ c = a ++ b ++ c.
Proof. induction a as [|x a IH]; simpl; [reflexivity | now rewrite IH]. Qed.

Lemma append_nil_r (a : string) : a ++ "" = a.
Proof. induction a as [|x a IH]; simpl; [reflexivity | now rewrite IH]. Qed.

Lemma strip_prefix_app (p s : string) : strip_prefix p (p ++ s) = Some s.
Proof.
  induction p as [|a p IH]; simpl; [reflexivity|].
  now rewrite Ascii.eqb_refl.
Qed.

Lemma strip_prefix_Some (p s s' : string) :
  strip_prefix p s = Some s' -> s = p ++ s'.
Proof.
  revert s; induction p as [|a p IH]; simpl; intros s H.
  - now inversion H.
  - destruct s as [|b s]; [discriminate|].
    destruct (Ascii.eqb_spec a b) as [->|]; [|discriminate].
    now rewrite (IH _ H).
Qed.

(** A pattern of literal text matches exactly the strings that contain
    the text. *)
Lemma matches_lit (m s : string) : matches [Lit m] s = true <-> contains m s.
Proof.
  unfold matches, contains; split.
  - induction s as [|a s IH]; simpl.
    + destruct (strip_prefix m "") eqn:E; [|discriminate].
      intros _; exists "", s; simpl. now apply strip_prefix_Some.
    + destruct (strip_prefix m (String a s)) eqn:E.
      * intros _; exists "", s0; simpl. now apply strip_prefix_Some.
      * intros H. destruct (IH H) as (pre & post & ->).
        now exists (String a pre), post.
  - intros (pre & post & ->).
    induction pre as [|a pre IH]; simpl.
    + destruct (m ++ post) eqn:E; simpl;
        rewrite <- E, strip_prefix_app; reflexivity.
    + destruct (strip_prefix m (String a (pre ++ m ++ post))); [reflexivity|].
      exact IH.
Qed.

Lemma matches_lit_false (m s : string) :
  matches [Lit m] s = false <-> ~ contains m s.
Proof.
  rewrite <- matches_lit. destruct (matches [Lit m] s); split; intros H;
    try reflexivity; try discriminate; try (intros C; discriminate).
  now exfalso; apply H.
Qed.

Section GreedyPlus.
Variable R : Type.
Variable c : cclass.
Variable k : string -> string -> option R.

(** No run the [+] can take lets the rest of the pattern match. *)
Lemma plus_greedy_None (v acc : string) :
  (forall w v', w <> "" -> v = w ++ v' -> accepted c w v' = true ->
                k (acc ++ w) v' = None) ->
  plus_greedy c k acc v = None.
Proof.
  revert acc; induction v as [|a v IH]; intros acc H; simpl; [reflexivity|].
  destruct (accepts c (String a v)) eqn:Ea; [|reflexivity].
  rewrite IH.
  - apply (H (String a "") v); [discriminate | reflexivity |].
    cbn [accepted]. change ("" ++ v) with v. now rewrite Ea.
  - intros w v' Hw -> Hacc. rewrite append_assoc.
    change (String a "" ++ w) with (String a w).
    apply (H (String a w) v'); [discriminate | reflexivity |].
    cbn [accepted]. now rewrite Ea, Hacc.
Qed.

(** The greedy [+] settles on the longest run after which the rest of the
    pattern matches. *)
Lemma plus_greedy_longest (u v acc : string) (r : R) :
  u <> "" ->
  accepted c u v = true ->
  k (acc ++ u) v = Some r ->
  (forall w v', w <> "" -> v = w ++ v' -> accepted c w v' = true ->
                k (acc ++ u ++ w) v' = None) ->
  plus_greedy c k acc (u ++ v) = Some r.
Proof.
  revert acc; induction u as [|a u IH]; intros acc Hne Hacc Hk Hlonger;
    [congruence|].
  cbn [accepted] in Hacc. apply andb_prop in Hacc as [Ea Hu].
  change (String a u ++ v) with (String a (u ++ v)).
  cbn [plus_greedy]. rewrite Ea.
  destruct u as [|b u].
  - change ("" ++ v) with v. rewrite plus_greedy_None; [exact Hk|].
    intros w v' Hw Hv Hw'. rewrite append_assoc.
    now apply Hlonger.
  - rewrite IH; try reflexivity; try discriminate; try assumption.
    + now rewrite append_assoc.
    + intros w v' Hw Hv Hw'. rewrite append_assoc.
      now apply Hlonger.
Qed.

(** Whatever a lazy [+] hands on, it has consumed at least one
    character. *)
Lemma plus_lazy_consumes (s acc : string) (r : R) :
  plus_lazy c k acc s = Some r ->
  exists txt s', txt <> "" /\ k (acc ++ txt) s' = Some r.
Proof.
  revert acc; induction s as [|a s IH]; intros acc H; simpl in H;
    [discriminate|].
  destruct (accepts c (String a s)); [|discriminate].
  destruct (k (acc ++ String a "") s) eqn:Ek.
  - inversion H; subst. exists (String a ""), s. split; [discriminate|assumption].
  - destruct (IH _ H) as (txt & s' & Hne & Hk).
    exists (String a txt), s'. split; [discriminate|].
    now rewrite append_assoc in Hk.
Qed.
End GreedyPlus.

Arguments String.append : simpl never.

(** ** Running the monad *)

Lemma sent_app (a b : list Event) : sent (a ++ b) = (sent a ++ sent b)%list.
Proof.
  induction a as [|e a IH]; simpl; [reflexivity|].
  destruct e; simpl; now rewrite IH.
Qed.

Lemma sent_logs (ls : list string) : sent (map Log ls) = [].
Proof. induction ls; simpl; auto. Qed.

Lemma sent_debug_events (s : Client) (ls : list string) :
  sent (debug_events s ls) = [].
Proof. unfold debug_events. destruct (truthy (debug s)); auto using sent_logs. Qed.

Lemma log_lines_run (ls : list string) (w : World) :
  log_lines ls w = (Called tt, mkWorld (self w) (network w) (trace w ++ map Log ls)%list).
Proof.
  revert w; induction ls as [|l ls IH]; intros w; simpl.
  - unfold ret. rewrite app_nil_r. now destruct w.
  - unfold bind, log, emit. rewrite IH. simpl. now rewrite <- app_assoc.
Qed.

Lemma when_debug_run (ls : list string) (w : World) :
  when_debug ls w
  = (Called tt, mkWorld (self w) (network w) (trace w ++ debug_events (self w) ls)%list).
Proof.
  unfold when_debug, debug_events, bind, get_self.
  destruct (truthy (debug (self w))).
  - apply log_lines_run.
  - unfold ret. rewrite app_nil_r. now destruct w.
Qed.

Lemma debugLog_run (line : string) (w : World) :
  debugLog line w
  = (Called tt, mkWorld (self w) (network w) (trace w ++ debug_events (self w) [line])%list).
Proof.
  unfold debugLog, debug_events, bind, get_self, log, emit, ret.
  destruct (truthy (debug (self w))); simpl; [reflexivity|].
  rewrite app_nil_r. now destruct w.
Qed.

(** ** The fail-safe *)

Lemma getAuthenticationCookie_blocked (w : World) :
  failSafe (self w) = true ->
  getAuthenticationCookie w = (Called (Err blocked_error), w).
Proof.
  intros H. unfold getAuthenticationCookie, bind, get_self. now rewrite H.
Qed.

Lemma authenticatedRequest_blocked (n : nat) (config : Request.t) (w : World) :
  failSafe (self w) = true ->
  authenticatedRequest n config w
  = (Called (Err (new_Error ("Failed to get authentication cookie: "
                               ++ error_toString blocked_error))), w).
Proof.
  intros H. destruct n; simpl; unfold bind, authenticatedRequest_once, bind;
    now rewrite (getAuthenticationCookie_blocked _ H).
Qed.

Lemma getStatus_blocked (n : nat) (w : World) :
  failSafe (self w) = true ->
  exists e, getStatus n w = (Called (Err e), w).
Proof.
  intros H. eexists. unfold getStatus, bind, get_self.
  rewrite (authenticatedRequest_blocked _ _ _ H). reflexivity.
Qed.

Lemma quiet_refl (w : World) : quiet w w.
Proof. now repeat split. Qed.

Lemma quiet_trans (w1 w2 w3 : World) : quiet w1 w2 -> quiet w2 w3 -> quiet w1 w3.
Proof.
  intros (A1 & B1 & C1) (A2 & B2 & C2); repeat split; congruence.
Qed.

Lemma quiet_debug (w : World) (ls : list string) :
  quiet w (mkWorld (self w) (network w) (trace w ++ debug_events (self w) ls)%list).
Proof.
  repeat split; simpl. now rewrite sent_app, sent_debug_events, app_nil_r.
Qed.

Lemma setStatus_blocked (n : nat) (status : string) (w : World) :
  failSafe (self w) = true ->
  exists e w', setStatus n status w = (Called (Err e), w') /\ quiet w w'.
Proof.
  intros H. unfold setStatus.
  destruct (nullish (js_get stringMap status)).
  - do 2 eexists; split; [reflexivity | apply quiet_refl].
  - unfold bind at 1, get_self. unfold bind at 1.
    rewrite (authenticatedRequest_blocked _ _ _ H).
    unfold setStatus_callback, bind. rewrite debugLog_run.
    do 2 eexists; split; [reflexivity | apply quiet_debug].
Qed.

Lemma perform_blocked (op : Operation) (w : World) :
  failSafe (self w) = true ->
  exists e w', perform op w = (Failed e, w') /\ quiet w w'.
Proof.
  intros H. destruct op as [|n|n status]; simpl.
  - rewrite (getAuthenticationCookie_blocked _ H).
    do 2 eexists; split; [reflexivity | apply quiet_refl].
  - destruct (getStatus_blocked n _ H) as (e & ->).
    do 2 eexists; split; [reflexivity | apply quiet_refl].
  - destruct (setStatus_blocked n status _ H) as (e & w' & -> & Q).
    now do 2 eexists.
Qed.

(** A login the panel answers with the rejection marker sets the
    fail-safe. *)
Lemma rejection_sets_failSafe (w : World) response body rest :
  failSafe (self w) = false ->
  nullish (cookie (self w)) = true ->
  network w = NetOk response body :: rest ->
  contains "NOT::" body ->
  exists e w', getAuthenticationCookie w = (Called (Err e), w')
               /\ failSafe (self w') = true.
Proof.
  intros Hf Hc Hn Hb. apply matches_lit in Hb.
  change (matches re_NOT body = true) in Hb.
  unfold getAuthenticationCookie, bind at 1, get_self.
  rewrite Hf, Hc. simpl. unfold bind at 1, request. rewrite Hn.
  unfold bind at 1. rewrite when_debug_run, Hb.
  unfold bind, modify_self, log, emit, ret. simpl.
  do 2 eexists; split; reflexivity.
Qed.

(** C1. Once the fail-safe flag is set, whatever operations follow
    ([getAuthenticationCookie], [getStatus], [setStatus], with any argument,
    against any network script), each of them ends with its callback invoked
    with an error, none of them sends a request or consumes an answer, and
    the flag is still set afterwards. *)
Theorem failSafe_is_permanent (ops : list Operation) (w : World) :
  failSafe (self w) = true ->
  failSafe (self (snd (perform_all ops w))) = true
  /\ sent (trace (snd (perform_all ops w))) = sent (trace w)
  /\ network (snd (perform_all ops w)) = network w
  /\ Forall (fun o => exists e, o = Failed e) (fst (perform_all ops w)).
Proof.
  revert w; induction ops as [|op ops IH]; intros w H; simpl.
  - repeat split; auto.
  - destruct (perform_blocked op _ H) as (e & w1 & -> & Qs & Qn & Qt).
    assert (H1 : failSafe (self w1) = true) by now rewrite Qs.
    specialize (IH w1 H1). destruct (perform_all ops w1) as [os w2]; simpl in *.
    destruct IH as (I1 & I2 & I3 & I4).
    repeat split; try congruence.
    constructor; [now exists e | assumption].
Qed.

Lemma failSafe_is_permanent_witness :
  failSafe (self after_rejection) = true
  /\ sent (trace (snd (perform_all
       [OpGetStatus 2; OpSetStatus 2 ARMED_AWAY; OpGetAuthenticationCookie]
       after_rejection))) = sent (trace after_rejection).
Proof.
  split; [reflexivity|].
  apply (failSafe_is_permanent
           [OpGetStatus 2; OpSetStatus 2 ARMED_AWAY; OpGetAuthenticationCookie]
           after_rejection).
  reflexivity.
Defined.

(** ** Logging in *)

Ltac run_login Hf Hc :=
  unfold getAuthenticationCookie, bind at 1, get_self; cbv beta iota;
  rewrite Hf, Hc; cbv beta iota delta [negb];
  unfold bind at 1, request; cbv beta iota.

Ltac sent_simpl :=
  simpl trace;
  repeat (rewrite sent_app || rewrite sent_debug_events || rewrite sent_logs
          || rewrite app_nil_r);
  simpl sent.

(** A call that finds neither the fail-safe set nor a cookie cached sends
    the login request, and nothing else. *)
Lemma getAuthenticationCookie_sends_login (w : World) :
  failSafe (self w) = false ->
  nullish (cookie (self w)) = true ->
  sent (trace (snd (getAuthenticationCookie w)))
  = (sent (trace w) ++ [login_request (self w)])%list.
Proof.
  intros Hf Hc. run_login Hf Hc.
  destruct (network w) as [|r rest]; [now sent_simpl|].
  unfold bind at 1. rewrite when_debug_run.
  destruct r as [error|response body]; [now sent_simpl|].
  destruct (matches re_NOT body).
  - unfold bind, modify_self, log, emit, ret. now sent_simpl.
  - destruct (set_cookie response) as [[|first more]|]; try now sent_simpl.
    destruct (js_match re_cookie first) as [g|]; [|now sent_simpl].
    unfold bind at 1, modify_self. unfold bind at 1. rewrite debugLog_run.
    unfold ret. now sent_simpl.
Qed.

(** C9. A login that fails in the transport hands the transport's error to
    the callback and changes no field of the client: the cookie is still
    absent and the fail-safe still off.  The call sent one login request,
    and the next call sends the login request again. *)
Theorem transport_failure_is_retryable (w : World) error rest :
  failSafe (self w) = false ->
  nullish (cookie (self w)) = true ->
  network w = NetError error :: rest ->
  exists w1,
    getAuthenticationCookie w = (Called (Err error), w1)
    /\ self w1 = self w
    /\ network w1 = rest
    /\ sent (trace w1) = (sent (trace w) ++ [login_request (self w)])%list
    /\ sent (trace (snd (getAuthenticationCookie w1)))
       = (sent (trace w1) ++ [login_request (self w)])%list.
Proof.
  intros Hf Hc Hn.
  assert (E : exists w1, getAuthenticationCookie w = (Called (Err error), w1)
                         /\ self w1 = self w /\ network w1 = rest
                         /\ sent (trace w1)
                            = (sent (trace w) ++ [login_request (self w)])%list).
  { run_login Hf Hc. rewrite Hn. unfold bind at 1. rewrite when_debug_run.
    eexists; split; [reflexivity|]. repeat split. now sent_simpl. }
  destruct E as (w1 & E & Hs & Hr & Ht).
  exists w1; repeat split; try assumption.
  rewrite getAuthenticationCookie_sends_login; rewrite Hs; auto.
Qed.

Lemma transport_failure_is_retryable_witness :
  exists w1,
    getAuthenticationCookie (fresh [NetError (new_Error "ETIMEDOUT"); login_ok])
    = (Called (Err (new_Error "ETIMEDOUT")), w1)
    /\ self w1 = self (fresh [NetError (new_Error "ETIMEDOUT"); login_ok])
    /\ network w1 = [login_ok]
    /\ sent (trace w1) = [login_request (PowerLink2 example_options)]
    /\ sent (trace (snd (getAuthenticationCookie w1)))
       = (sent (trace w1) ++ [login_request (PowerLink2 example_options)])%list.
Proof.
  apply (@transport_failure_is_retryable
           (fresh [NetError (new_Error "ETIMEDOUT"); login_ok])
           (new_Error "ETIMEDOUT") [login_ok]);
    reflexivity.
Defined.

(** ** The session cookie *)

Lemma js_match_here (r : regex) (s : string) (g : option string) :
  match_at r s None = Some g -> js_match r s = Some g.
Proof. intros H. destruct s; simpl; now rewrite H. Qed.

Lemma all_chars_app (p : ascii -> bool) (a b : string) :
  all_chars p (a ++ b) = all_chars p a && all_chars p b.
Proof.
  induction a as [|x a IH]; [reflexivity|].
  change (String x a ++ b) with (String x (a ++ b)). simpl.
  now rewrite IH, andb_assoc.
Qed.

Lemma no_semicolon_strip (s : string) :
  no_semicolon s = true -> strip_prefix ";" s = None.
Proof.
  destruct s as [|a s]; [reflexivity|].
  unfold no_semicolon; cbn [strip_prefix all_chars].
  intros H. apply andb_prop in H as [H _].
  rewrite Ascii.eqb_sym. now destruct (Ascii.eqb a ";"%char).
Qed.

Lemma accepted_latin1 (u v : string) :
  accepted (NotLineTerminator Latin1) u v = no_line_terminator u.
Proof.
  unfold no_line_terminator. induction u as [|a u IH]; [reflexivity|].
  cbn [accepted all_chars accepts is_line_terminator]. rewrite IH.
  now rewrite orb_false_r.
Qed.

Lemma accepted_any (u v : string) : accepted AnyChar u v = true.
Proof. induction u as [|a u IH]; [reflexivity|]. cbn [accepted accepts]. exact IH. Qed.

(** [/(.+);/] on a header value: group 1 is the text before the last
    semicolon. *)
Lemma cookie_capture (pre post : string) :
  pre <> "" ->
  no_line_terminator pre = true ->
  no_semicolon post = true ->
  js_match re_cookie (pre ++ ";" ++ post) = Some (Some pre).
Proof.
  intros Hne Hpre Hpost. apply js_match_here.
  unfold re_cookie, match_at.
  apply plus_greedy_longest; try assumption.
  - now rewrite accepted_latin1.
  - change (";" ++ post) with (String ";" post). reflexivity.
  - intros w v' Hw Hv _.
    destruct w as [|a w]; [congruence|].
    change (";" ++ post) with (String ";" post) in Hv.
    change (String a w ++ v') with (String a (w ++ v')) in Hv.
    inversion Hv; subst.
    unfold no_semicolon in Hpost. rewrite all_chars_app in Hpost.
    apply andb_prop in Hpost as [_ Hv'].
    now rewrite (no_semicolon_strip _ Hv').
Qed.

(** C5, as amended.  On a login answer without the rejection marker, whose
    first set-cookie value reads [pre;post] with [pre] non-empty and free of
    line breaks and [post] free of semicolons, the cookie cached and handed
    to the callback is [pre]: the value cut at its last semicolon. *)
Theorem cookie_is_cut_at_last_semicolon
        (w : World) response body rest first more pre post :
  failSafe (self w) = false ->
  nullish (cookie (self w)) = true ->
  network w = NetOk response body :: rest ->
  ~ contains "NOT::" body ->
  set_cookie response = Some (first :: more) ->
  first = pre ++ ";" ++ post ->
  pre <> "" ->
  no_line_terminator pre = true ->
  no_semicolon post = true ->
  exists w1,
    getAuthenticationCookie w = (Called (Ok (JsString pre)), w1)
    /\ cookie (self w1) = JsString pre
    /\ failSafe (self w1) = false.
Proof.
  intros Hf Hc Hn Hb Hh -> Hne Hpre Hpost.
  apply matches_lit_false in Hb. change (matches re_NOT body = false) in Hb.
  run_login Hf Hc. rewrite Hn. unfold bind at 1. rewrite when_debug_run, Hb, Hh.
  rewrite (cookie_capture _ Hne Hpre Hpost).
  unfold bind at 1, modify_self. unfold bind at 1. rewrite debugLog_run.
  unfold ret. eexists; split; [reflexivity|]. simpl. now split.
Qed.

Lemma cookie_is_cut_at_last_semicolon_witness :
  exists w1,
    getAuthenticationCookie (fresh [login_two_attributes])
    = (Called (Ok (JsString "PowerLink=abc; path=/")), w1)
    /\ cookie (self w1) = JsString "PowerLink=abc; path=/"
    /\ failSafe (self w1) = false.
Proof.
  apply (@cookie_is_cut_at_last_semicolon
           (fresh [login_two_attributes])
           (mkResponse (Some ["PowerLink=abc; path=/; HttpOnly"]))
           "OK" [] "PowerLink=abc; path=/; HttpOnly" []
           "PowerLink=abc; path=/" " HttpOnly");
    try reflexivity.
  - apply matches_lit_false. reflexivity.
  - discriminate.
Defined.

(** C5, as stated, fails: with two attributes after the cookie, what is
    cached is not the value cut at its first semicolon. *)
Lemma cookie_not_cut_at_first_semicolon :
  before_first_semicolon "PowerLink=abc; path=/; HttpOnly" = "PowerLink=abc"
  /\ fst (getAuthenticationCookie (fresh [login_two_attributes]))
     = Called (Ok (JsString "PowerLink=abc; path=/"))
  /\ cookie (self (snd (getAuthenticationCookie (fresh [login_two_attributes]))))
     <> JsString (before_first_semicolon "PowerLink=abc; path=/; HttpOnly").
Proof.
  split; [reflexivity|]. split; [reflexivity|].
  vm_compute. discriminate.
Qed.

(** ** Authenticated requests *)

(** A call that hands over a cookie leaves the fail-safe off. *)
Lemma getAuthenticationCookie_Ok (w w1 : World) (c : JsValue) :
  getAuthenticationCookie w = (Called (Ok c), w1) ->
  failSafe (self w1) = false.
Proof.
  unfold getAuthenticationCookie, bind at 1, get_self; cbv beta iota.
  destruct (failSafe (self w)) eqn:Hf; [discriminate|].
  destruct (nullish (cookie (self w))); cbv beta iota delta [negb].
  2:{ unfold ret. intros H; inversion H; subst. exact Hf. }
  unfold bind at 1, request; cbv beta iota.
  destruct (network w) as [|r rest]; [discriminate|].
  unfold bind at 1. rewrite when_debug_run.
  destruct r as [error|response body]; [discriminate|].
  destruct (matches re_NOT body).
  - unfold bind, modify_self, log, emit, ret. discriminate.
  - destruct (set_cookie response) as [[|first more]|]; try discriminate.
    destruct (js_match re_cookie first) as [g|]; [|discriminate].
    unfold bind at 1, modify_self. unfold bind at 1. rewrite debugLog_run.
    unfold ret. intros H; inversion H; subst. exact Hf.
Qed.

Lemma js_set_twice (o : JsObject) (k : string) (a b : JsValue) :
  js_set (js_set o k a) k b = js_set o k b.
Proof.
  induction o as [|[k' v] o IH]; simpl.
  - now rewrite String.eqb_refl.
  - destruct (String.eqb k k') eqn:E; simpl; rewrite E; [reflexivity|].
    now rewrite IH.
Qed.

Lemma js_get_set (o : JsObject) (k : string) (v : JsValue) :
  js_get (js_set o k v) k = v.
Proof.
  unfold js_get.
  assert (H : own_property (js_set o k v) k = Some v).
  { induction o as [|[k' v'] o IH]; simpl.
    - now rewrite String.eqb_refl.
    - destruct (String.eqb k k') eqn:E; simpl; rewrite E; auto. }
  now rewrite H.
Qed.

Lemma with_cookie_twice (config : Request.t) (a b : JsValue) :
  with_cookie (with_cookie config a) b = with_cookie config b.
Proof. unfold with_cookie; simpl. now rewrite js_set_twice. Qed.

(** Without a timeout of the caller's, line 219 raises once the cookie is
    at hand, before the request goes out. *)
Lemma unset_timeout_raises (n : nat) (config : Request.t) (w w1 : World) c :
  getAuthenticationCookie w = (Called (Ok c), w1) ->
  truthy (Request.timeout config) = false ->
  authenticatedRequest n config w = (Threw (TypeError "self.config.timeout"), w1).
Proof.
  intros Hc Ht.
  destruct n; simpl; unfold bind at 1, authenticatedRequest_once, bind at 1;
    rewrite Hc; simpl; now rewrite Ht.
Qed.

(** With a timeout of the caller's, the request goes out with the cookie
    among its headers. *)
Lemma authenticatedRequest_once_sends (config : Request.t) (w w1 : World) c :
  getAuthenticationCookie w = (Called (Ok c), w1) ->
  truthy (Request.timeout config) = true ->
  sent (trace (snd (authenticatedRequest_once config w)))
  = (sent (trace w1) ++ [with_cookie config c])%list.
Proof.
  intros Hc Ht. unfold authenticatedRequest_once, bind at 1. rewrite Hc.
  cbv beta iota. change (Request.timeout (with_cookie config c))
    with (Request.timeout config). rewrite Ht. cbv beta iota delta [negb].
  unfold bind at 1, request. cbv beta iota.
  destruct (network w1) as [|a rest]; [now sent_simpl|].
  destruct a as [error|response body]; [now sent_simpl|].
  destruct (String.eqb body "" || matches re_RELOGIN body); [|now sent_simpl].
  unfold bind at 1. rewrite debugLog_run.
  unfold bind, modify_self, emit, ret. now sent_simpl.
Qed.

Lemma stale_attempt (config : Request.t) (w w1 : World) c response body rest :
  getAuthenticationCookie w = (Called (Ok c), w1) ->
  truthy (Request.timeout config) = true ->
  network w1 = NetOk response body :: rest ->
  body = "" \/ contains "[RELOGIN]" body ->
  authenticatedRequest_once config w
  = (Called (Retry 3000 (with_cookie config c)),
     after_stale w1 (with_cookie config c) rest).
Proof.
  intros Hc Ht Hn Hb.
  assert (Hs : String.eqb body "" || matches re_RELOGIN body = true).
  { destruct Hb as [->|Hb]; [reflexivity|].
    apply matches_lit in Hb. change (matches re_RELOGIN body = true) in Hb.
    rewrite Hb. apply orb_true_r. }
  unfold authenticatedRequest_once, bind at 1. rewrite Hc.
  cbv beta iota. change (Request.timeout (with_cookie config c))
    with (Request.timeout config). rewrite Ht. cbv beta iota delta [negb].
  unfold bind at 1, request. cbv beta iota. rewrite Hn, Hs.
  unfold bind at 1. rewrite debugLog_run.
  unfold bind, modify_self, emit, ret, after_stale. simpl.
  now rewrite <- !app_assoc.
Qed.

(** C2. When the request went out and its answer has an empty body or
    contains [[RELOGIN]], the attempt ends with the cookie set to [null] and
    a timer of 3000 ms set to re-run [authenticatedRequest] on the same
    request object; the callback is not invoked.  When the timer fires the
    re-run finds no cookie, so it sends the login request, and with the
    cookie [c'] that login yields it sends the same request with [c'] as its
    Cookie header. *)
Theorem stale_session_is_retried
        (config : Request.t) (w w1 : World) c response body rest :
  getAuthenticationCookie w = (Called (Ok c), w1) ->
  truthy (Request.timeout config) = true ->
  network w1 = NetOk response body :: rest ->
  body = "" \/ contains "[RELOGIN]" body ->
  let config' := with_cookie config c in
  let w2 := after_stale w1 config' rest in
  authenticatedRequest_once config w = (Called (Retry 3000 config'), w2)
  /\ cookie (self w2) = JsNull
  /\ authenticatedRequest 0 config w = (AwaitingTimer 3000, w2)
  /\ (forall n, authenticatedRequest (S n) config w = authenticatedRequest n config' w2)
  /\ sent (trace (snd (getAuthenticationCookie w2)))
     = (sent (trace w2) ++ [login_request (self w2)])%list
  /\ (forall c' w3,
         getAuthenticationCookie w2 = (Called (Ok c'), w3) ->
         sent (trace (snd (authenticatedRequest_once config' w2)))
         = (sent (trace w3) ++ [with_cookie config c'])%list
         /\ js_get (match Request.headers (with_cookie config c') with
                    | Some h => h | None => [] end) "Cookie" = c'
         /\ Request.url (with_cookie config c') = Request.url config
         /\ Request.method (with_cookie config c') = Request.method config
         /\ Request.form (with_cookie config c') = Request.form config
         /\ Request.timeout (with_cookie config c') = Request.timeout config).
Proof.
  intros Hc Ht Hn Hb config' w2.
  pose proof (@stale_attempt config w w1 c response body rest Hc Ht Hn Hb) as Hstale.
  fold config' in Hstale. fold w2 in Hstale.
  split; [exact Hstale|]. split; [reflexivity|].
  split; [simpl; unfold bind at 1; now rewrite Hstale|].
  split; [intros n; simpl; unfold bind at 1; now rewrite Hstale|].
  split.
  - apply getAuthenticationCookie_sends_login; [|reflexivity].
    simpl. exact (@getAuthenticationCookie_Ok w w1 c Hc).
  - intros c' w3 Hc'. split.
    + rewrite (@authenticatedRequest_once_sends config' w2 w3 c' Hc' Ht).
      unfold config'. now rewrite with_cookie_twice.
    + simpl. repeat split. apply js_get_set.
Qed.

Lemma stale_session_is_retried_witness :
  let w := fresh stale_script in
  let w1 := snd (getAuthenticationCookie w) in
  let config' := with_cookie example_request (JsString "PowerLink=abc") in
  let w2 := after_stale w1 config' (skipn 2 stale_script) in
  authenticatedRequest_once example_request w = (Called (Retry 3000 config'), w2)
  /\ cookie (self w2) = JsNull
  /\ authenticatedRequest 0 example_request w = (AwaitingTimer 3000, w2)
  /\ (forall n, authenticatedRequest (S n) example_request w
                = authenticatedRequest n config' w2)
  /\ sent (trace (snd (getAuthenticationCookie w2)))
     = (sent (trace w2) ++ [login_request (self w2)])%list
  /\ (forall c' w3,
         getAuthenticationCookie w2 = (Called (Ok c'), w3) ->
         sent (trace (snd (authenticatedRequest_once config' w2)))
         = (sent (trace w3) ++ [with_cookie example_request c'])%list
         /\ js_get (match Request.headers (with_cookie example_request c') with
                    | Some h => h | None => [] end) "Cookie" = c'
         /\ Request.url (with_cookie example_request c') = Request.url example_request
         /\ Request.method (with_cookie example_request c')
            = Request.method example_request
         /\ Request.form (with_cookie example_request c') = Request.form example_request
         /\ Request.timeout (with_cookie example_request c')
            = Request.timeout example_request).
Proof.
  intros w w1 config' w2.
  apply (@stale_session_is_retried example_request w w1
           (JsString "PowerLink=abc") (mkResponse None) "[RELOGIN]"
           (skipn 2 stale_script)).
  - reflexivity.
  - reflexivity.
  - reflexivity.
  - right. now exists "", "".
Defined.

(** The run of the example: a login, the request, a second login, the same
    request with the second cookie. *)
Example stale_session_trace :
  sent (trace (snd (authenticatedRequest 1 example_request (fresh stale_script))))
  = [ login_request (PowerLink2 example_options);
      with_cookie example_request (JsString "PowerLink=abc");
      login_request (PowerLink2 example_options);
      with_cookie example_request (JsString "PowerLink=def") ]
  /\ fst (authenticatedRequest 1 example_request (fresh stale_script))
     = Called (Ok (mkResponse None, "<reply></reply>")).
Proof. split; reflexivity. Qed.

(** ** Requests without a timeout of the caller's *)

Lemma getAuthenticationCookie_sends (w : World) :
  let w1 := snd (getAuthenticationCookie w) in
  sent (trace w1) = sent (trace w)
  \/ sent (trace w1) = (sent (trace w) ++ [login_request (self w)])%list.
Proof.
  intros w1. subst w1.
  destruct (failSafe (self w)) eqn:Hf.
  - left. now rewrite getAuthenticationCookie_blocked.
  - destruct (nullish (cookie (self w))) eqn:Hc.
    + right. now apply getAuthenticationCookie_sends_login.
    + left. unfold getAuthenticationCookie, bind, get_self. now rewrite Hf, Hc.
Qed.

(** Without a timeout of the caller's, [authenticatedRequest] ends where
    [getAuthenticationCookie] ends, with a [TypeError] in place of the
    cookie. *)
Lemma without_timeout_result (n : nat) (config : Request.t) (w : World) :
  truthy (Request.timeout config) = false ->
  authenticatedRequest n config w
  = match getAuthenticationCookie w with
    | (Called (Err e), w1) =>
        (Called (Err (new_Error ("Failed to get authentication cookie: "
                                   ++ error_toString e))), w1)
    | (Called (Ok _), w1) => (Threw (TypeError "self.config.timeout"), w1)
    | (Threw e, w1) => (Threw e, w1)
    | (AwaitingResponse, w1) => (AwaitingResponse, w1)
    | (AwaitingTimer ms, w1) => (AwaitingTimer ms, w1)
    end.
Proof.
  intros Ht.
  destruct n; simpl; unfold bind, authenticatedRequest_once, bind;
    destruct (getAuthenticationCookie w) as [[[e|c]|e| |ms] w1]; simpl;
    rewrite ?Ht; reflexivity.
Qed.

(** So it never hands an answer to its callback, and sends the login
    request at most. *)
Lemma without_timeout (n : nat) (config : Request.t) (w : World) :
  truthy (Request.timeout config) = false ->
  (forall x, fst (authenticatedRequest n config w) <> Called (Ok x))
  /\ (sent (trace (snd (authenticatedRequest n config w))) = sent (trace w)
      \/ sent (trace (snd (authenticatedRequest n config w)))
         = (sent (trace w) ++ [login_request (self w)])%list).
Proof.
  intros Ht. pose proof (getAuthenticationCookie_sends w) as Hs. simpl in Hs.
  rewrite (without_timeout_result n config w Ht).
  destruct (getAuthenticationCookie w) as [[[e|c]|e| |ms] w1]; simpl in *;
    (split; [discriminate | exact Hs]).
Qed.

(** [getStatus] never sends the status request. *)
Lemma getStatus_sends_no_status_request (n : nat) (w : World) :
  sent (trace (snd (getStatus n w))) = sent (trace w)
  \/ sent (trace (snd (getStatus n w)))
     = (sent (trace w) ++ [login_request (self w)])%list.
Proof.
  destruct (@without_timeout n (getStatus_request (self w)) w eq_refl) as [Hno Hs].
  unfold getStatus, bind, get_self. cbv beta iota.
  destruct (authenticatedRequest n (getStatus_request (self w)) w)
    as [[[e|x]|e| |ms] w1]; simpl in *; try exact Hs.
  now destruct (Hno x).
Qed.

(** [setStatus] never sends the command request. *)
Lemma setStatus_sends_no_command (n : nat) (status : string) (w : World) :
  sent (trace (snd (setStatus n status w))) = sent (trace w)
  \/ sent (trace (snd (setStatus n status w)))
     = (sent (trace w) ++ [login_request (self w)])%list.
Proof.
  unfold setStatus. destruct (nullish (js_get stringMap status)); [now left|].
  destruct (@without_timeout n (setStatus_request (self w) (js_get stringMap status))
                             w eq_refl) as [Hno Hs].
  unfold bind, get_self. cbv beta iota.
  destruct (authenticatedRequest n _ w) as [[[e|[r body]]|e| |ms] w1];
    cbn [fst snd] in *; try exact Hs.
  - unfold setStatus_callback, bind. rewrite debugLog_run. simpl.
    now rewrite sent_app, sent_debug_events, app_nil_r.
  - now destruct (Hno (r, body)).
Qed.

(** C6.  A client built without a timeout option stores 2500, and the
    requests [getStatus] and [setStatus] build carry no timeout of their
    own; yet the configured timeout never reaches them.  Once the login has
    succeeded, [getStatus] raises a [TypeError] on [self.config.timeout]:
    the login request is the only one on the trace and the status answer is
    still unread.  On every client and against every script, [getStatus] and
    [setStatus] send the login request at most. *)
Theorem configured_timeout_is_not_applied :
  timeout (PowerLink2 example_options) = JsNumber 2500
  /\ Request.timeout (getStatus_request (PowerLink2 example_options)) = JsUndefined
  /\ fst (getStatus 1 (fresh [login_ok; status_ready]))
     = Threw (TypeError "self.config.timeout")
  /\ sent (trace (snd (getStatus 1 (fresh [login_ok; status_ready]))))
     = [login_request (PowerLink2 example_options)]
  /\ network (snd (getStatus 1 (fresh [login_ok; status_ready]))) = [status_ready]
  /\ (forall n w,
         sent (trace (snd (getStatus n w))) = sent (trace w)
         \/ sent (trace (snd (getStatus n w)))
            = (sent (trace w) ++ [login_request (self w)])%list)
  /\ (forall n status w,
         sent (trace (snd (setStatus n status w))) = sent (trace w)
         \/ sent (trace (snd (setStatus n status w)))
            = (sent (trace w) ++ [login_request (self w)])%list).
Proof.
  repeat split.
  - apply getStatus_sends_no_status_request.
  - apply setStatus_sends_no_command.
Qed.

(** ** The status callback *)

Lemma contains_NOCNG (body : string) :
  contains NOCNG_marker body <-> matches re_NOCNG body = true.
Proof. symmetry. apply matches_lit. Qed.

(** X21.  The callback [getStatus] hands to [authenticatedRequest], on an
    answer whose body contains [<customStatus>[NOCNG]</customStatus>]: it
    hands the stored [lastStatus] to the caller's callback; no field of the
    client changes, no answer is consumed and nothing is sent: the trace
    grows by log lines only. *)
Theorem no_change_returns_last_status (w : World) response body :
  contains NOCNG_marker body ->
  exists w',
    getStatus_callback (Ok (response, body)) w
    = (Called (Ok (lastStatus (self w))), w')
    /\ self w' = self w
    /\ network w' = network w
    /\ trace w' = (trace w ++ debug_events (self w) (status_debug_lines body)
                         ++ [Log no_change_line])%list.
Proof.
  intros H. apply contains_NOCNG in H.
  unfold getStatus_callback, bind at 1. rewrite when_debug_run, H.
  unfold bind, log, emit, get_self, ret. simpl.
  eexists; split; [reflexivity|]. repeat split.
  now rewrite <- app_assoc.
Qed.

Lemma no_change_returns_last_status_witness :
  exists w',
    getStatus_callback (Ok (mkResponse None, no_change_body))
                       (deliver [Ok (mkResponse None, "<system> <status>AWAY</status> </system>")]
                                (fresh []))
    = (Called (Ok (JsString ARMED_AWAY)), w')
    /\ lastStatus (self w') = JsString ARMED_AWAY.
Proof.
  destruct (@no_change_returns_last_status
              (deliver [Ok (mkResponse None, "<system> <status>AWAY</status> </system>")]
                       (fresh []))
              (mkResponse None) no_change_body)
    as (w' & E & Hs & _).
  - now exists "<reply>", "</reply>".
  - exists w'. split; [exact E | now rewrite Hs].
Defined.

(** C8.  On a client that has not read a status yet, an answer with the
    no-change marker makes [getStatus]'s callback hand [undefined] to the
    caller, which is no value of [STATUSES]; and the whole call, on the same
    answer, ends with the [TypeError] of line 219 rather than with the
    callback invoked. *)
Theorem first_no_change_yields_undefined :
  lastStatus (PowerLink2 example_options) = JsUndefined
  /\ fst (getStatus_callback (Ok (mkResponse None, no_change_body)) (fresh []))
     = Called (Ok JsUndefined)
  /\ is_status JsUndefined = false
  /\ fst (getStatus 1 (fresh [login_ok; NetOk (mkResponse None) no_change_body]))
     = Threw (TypeError "self.config.timeout").
Proof. repeat split. Qed.

(** The table of [getStatus], and what lies outside it. *)
Lemma status_of_raw (raw : string) :
  js_or (js_get statusStringToStatus raw) (JsString UNKNOWN)
  = if String.eqb raw "Ready" then JsString DISARMED
    else if String.eqb raw "NotReady" then JsString DISARMED
    else if String.eqb raw "Exit Delay" then JsString EXIT_DELAY
    else if String.eqb raw "HOME" then JsString ARMED_HOME
    else if String.eqb raw "AWAY" then JsString ARMED_AWAY
    else if mem_string raw Object_prototype then JsInherited raw
    else JsString UNKNOWN.
Proof.
  unfold js_get, statusStringToStatus, own_property.
  repeat match goal with
         | |- context [String.eqb raw ?k] => destruct (String.eqb raw k); [reflexivity|]
         end.
  now destruct (mem_string raw Object_prototype).
Qed.

(** What the callback does with an answer that has no no-change marker and
    the status fragment. *)
Lemma getStatus_callback_parses (w : World) response body raw :
  matches re_NOCNG body = false ->
  js_match re_status body = Some (Some raw) ->
  let status := js_or (js_get statusStringToStatus raw) (JsString UNKNOWN) in
  exists w',
    getStatus_callback (Ok (response, body)) w = (Called (Ok status), w')
    /\ lastStatus (self w') = status.
Proof.
  intros Hn Hs status.
  unfold getStatus_callback, bind at 1. rewrite when_debug_run, Hn.
  unfold bind at 1.
  destruct (js_match re_index body) as [g|].
  - unfold bind at 1, modify_self. rewrite debugLog_run, Hs.
    unfold bind, modify_self, ret. simpl. eexists; split; reflexivity.
  - unfold ret at 1. rewrite Hs.
    unfold bind, modify_self, ret. simpl. eexists; split; reflexivity.
Qed.

(** The five raw strings of the table, and one outside it. *)
Example status_table :
  map (fun raw => js_or (js_get statusStringToStatus raw) (JsString UNKNOWN))
      ["Ready"; "NotReady"; "Exit Delay"; "HOME"; "AWAY"; "Entry Delay"]
  = map JsString [DISARMED; DISARMED; EXIT_DELAY; ARMED_HOME; ARMED_AWAY; UNKNOWN].
Proof. reflexivity. Qed.

Example ready_is_disarmed :
  fst (getStatus_callback
         (Ok (mkResponse None,
              "<reply><index>12</index><system> <status>Ready</status> </system></reply>"))
         (fresh []))
  = Called (Ok (JsString DISARMED)).
Proof. reflexivity. Qed.

(** C3.  The status fragment with the raw string [constructor], which the
    table does not list: the callback hands the caller the member of
    [Object.prototype] of that name and stores it as [lastStatus]; it is
    neither [UNKNOWN] nor any value of [STATUSES]. *)
Theorem inherited_name_is_not_unknown :
  matches re_NOCNG inherited_body = false
  /\ js_match re_status inherited_body = Some (Some "constructor")
  /\ own_property statusStringToStatus "constructor" = None
  /\ fst (getStatus_callback (Ok (mkResponse None, inherited_body)) (fresh []))
     = Called (Ok (JsInherited "constructor"))
  /\ lastStatus (self (snd (getStatus_callback (Ok (mkResponse None, inherited_body))
                                               (fresh []))))
     = JsInherited "constructor"
  /\ JsInherited "constructor" <> JsString UNKNOWN
  /\ is_status (JsInherited "constructor") = false.
Proof. repeat split. discriminate. Qed.

(** ** The status cursor *)

Lemma js_match_somewhere (r : regex) (s : string) (g : option string) :
  js_match r s = Some g -> exists s0, match_at r s0 None = Some g.
Proof.
  induction s as [|a s IH]; simpl.
  - destruct (match_at r "" None) eqn:E; [|discriminate].
    intros H; inversion H; subst. now exists "".
  - destruct (match_at r (String a s) None) eqn:E.
    + intros H; inversion H; subst. now exists (String a s).
    + exact IH.
Qed.

(** Group 1 of [/<index>([^]+?)<\/index>/] is a non-empty string. *)
Lemma index_group (body : string) (g : option string) :
  js_match re_index body = Some g -> exists i, g = Some i /\ i <> "".
Proof.
  intros H. apply js_match_somewhere in H as (s0 & H).
  unfold re_index, match_at in H.
  destruct (strip_prefix "<index>" s0) as [s1|]; [|discriminate].
  apply plus_lazy_consumes in H as (txt & s' & Hne & H).
  destruct (strip_prefix "</index>" s'); [|discriminate].
  inversion H; subst. now exists txt.
Qed.

Lemma index_of_response_nonempty r i : index_of_response r = Some i -> i <> "".
Proof.
  destruct r as [e|[response body]]; simpl; [discriminate|].
  destruct (matches re_NOCNG body); [discriminate|].
  destruct (js_match re_index body) as [g|] eqn:E; [|discriminate].
  destruct (index_group _ E) as (j & -> & Hj).
  intros H; inversion H; now subst.
Qed.

Lemma most_recent_index_nonempty rs i : most_recent_index rs = Some i -> i <> "".
Proof.
  induction rs as [|r rs IH]; simpl; [discriminate|].
  destruct (most_recent_index rs) as [j|].
  - intros H; inversion H; subst. now apply IH.
  - apply index_of_response_nonempty.
Qed.

(** One answer: the cursor becomes the answer's index when the answer hands
    one over, and stays as it was otherwise. *)
Lemma getStatus_callback_cursor r (w : World) :
  getStatusIndex (self (snd (getStatus_callback r w)))
  = match index_of_response r with
    | Some i => JsString i
    | None => getStatusIndex (self w)
    end.
Proof.
  destruct r as [e|[response body]]; [reflexivity|].
  unfold getStatus_callback, index_of_response, bind at 1.
  rewrite when_debug_run.
  destruct (matches re_NOCNG body); [reflexivity|].
  unfold bind at 1.
  destruct (js_match re_index body) as [g|] eqn:E.
  - destruct (index_group _ E) as (i & -> & _).
    unfold bind at 1, modify_self. rewrite debugLog_run.
    destruct (js_match re_status body); reflexivity.
  - unfold ret at 1. destruct (js_match re_status body); reflexivity.
Qed.

Lemma deliver_cursor rs (w : World) :
  getStatusIndex (self (deliver rs w))
  = match most_recent_index rs with
    | Some i => JsString i
    | None => getStatusIndex (self w)
    end.
Proof.
  revert w; induction rs as [|r rs IH]; intros w; simpl; [reflexivity|].
  rewrite IH, getStatus_callback_cursor.
  now destruct (most_recent_index rs).
Qed.

(** Whatever answers [getStatus]'s callback has been handed since the
    client was built, the request [getStatus] builds next carries as
    [curindex] the group of the index pattern on the most recent answer that
    came without an error, did not match the no-change pattern and matched
    the index pattern, and ["0"] when there has been none. *)
Theorem cursor_follows_parsed_answers
        (config : Options.t) net tr (rs : list (Callback (Response * string))) :
  curindex (getStatus_request (self (deliver rs (mkWorld (PowerLink2 config) net tr))))
  = JsString (match most_recent_index rs with Some i => i | None => "0" end).
Proof.
  unfold curindex, getStatus_request, js_get; simpl.
  rewrite deliver_cursor.
  destruct (most_recent_index rs) as [i|] eqn:E; [|reflexivity].
  apply most_recent_index_nonempty in E.
  unfold js_or, truthy.
  destruct (String.eqb_spec i ""); [contradiction | reflexivity].
Qed.

(** An answer handed to the callback that holds an [<index>] fragment next
    to the no-change marker leaves the cursor alone. *)
Example index_beside_no_change_is_ignored :
  js_match re_index no_change_with_index = Some (Some "7")
  /\ curindex (getStatus_request
                 (self (deliver [Ok (mkResponse None, no_change_with_index)] (fresh []))))
     = JsString "0"
  /\ curindex (getStatus_request
                 (self (deliver [Ok (mkResponse None, no_change_with_index)] (fresh []))))
     <> JsString "7".
Proof. repeat split. discriminate. Qed.

(** ** Commands *)

Lemma stringMap_own :
  stringMap = [ (DISARMED, JsString "Disarm"); (ARMED_HOME, JsString "ArmHome");
                (ARMED_AWAY, JsString "ArmAway") ].
Proof. reflexivity. Qed.

(** X19.  The targets [setStatus] tells apart.  For a target that is not the name
    of a member of [Object.prototype]: when the command map has no entry
    for it,
    [setStatus] invokes its callback with an error and leaves the world as
    it is, so nothing is sent; when the map has an entry, the target is
    [DISARMED], [ARMED_HOME] or [ARMED_AWAY], the entry is ["Disarm"],
    ["ArmHome"] or ["ArmAway"], and [setStatus] is [authenticatedRequest] on
    a request whose form field [set] is that entry. *)
Theorem setStatus_targets (n : nat) (status : string) (w : World) :
  mem_string status Object_prototype = false ->
  match own_property stringMap status with
  | None =>
      setStatus n status w
      = (Called (Err (new_Error ("Cannot set status to: " ++ status))), w)
  | Some command =>
      setStatus n status w
      = bind (authenticatedRequest n (setStatus_request (self w) command))
             setStatus_callback w
      /\ js_get (Request.form (setStatus_request (self w) command)) "set" = command
      /\ ((status = DISARMED /\ command = JsString "Disarm")
          \/ (status = ARMED_HOME /\ command = JsString "ArmHome")
          \/ (status = ARMED_AWAY /\ command = JsString "ArmAway"))
  end.
Proof.
  intros Hp. unfold setStatus, js_get. rewrite Hp.
  rewrite stringMap_own. unfold own_property.
  destruct (String.eqb_spec status DISARMED) as [->|_];
    [repeat split; auto|].
  destruct (String.eqb_spec status ARMED_HOME) as [->|_];
    [repeat split; auto|].
  destruct (String.eqb_spec status ARMED_AWAY) as [->|_];
    [repeat split; auto|].
  reflexivity.
Qed.

Lemma setStatus_targets_witness :
  setStatus 1 EXIT_DELAY (fresh [login_ok])
  = (Called (Err (new_Error "Cannot set status to: exit delay")), fresh [login_ok])
  /\ setStatus 1 UNKNOWN (fresh [login_ok])
     = (Called (Err (new_Error "Cannot set status to: unknown")), fresh [login_ok])
  /\ js_get (Request.form (setStatus_request (self (fresh [login_ok]))
                                             (JsString "ArmHome"))) "set"
     = JsString "ArmHome".
Proof.
  split; [|split].
  - apply (@setStatus_targets 1 EXIT_DELAY (fresh [login_ok])). reflexivity.
  - apply (@setStatus_targets 1 UNKNOWN (fresh [login_ok])). reflexivity.
  - apply (@setStatus_targets 1 ARMED_HOME (fresh [login_ok])). reflexivity.
Defined.

(** C4.  The target [constructor] is no entry of the command map and no
    value of [STATUSES]; the lookup in the command map finds the member of
    [Object.prototype] of that name, so [setStatus] does not invoke its
    callback with the error but goes on to [authenticatedRequest], which
    sends the login request. *)
Theorem inherited_target_reaches_the_network :
  own_property stringMap "constructor" = None
  /\ is_status (JsString "constructor") = false
  /\ js_get stringMap "constructor" = JsInherited "constructor"
  /\ sent (trace (snd (setStatus 0 "constructor"
                                 (fresh [NetError (new_Error "ETIMEDOUT")]))))
     = [login_request (PowerLink2 example_options)]
  /\ sent (trace (snd (setStatus 0 "constructor"
                                 (fresh [NetError (new_Error "ETIMEDOUT")]))))
     <> sent (trace (fresh [NetError (new_Error "ETIMEDOUT")])).
Proof. repeat split. discriminate. Qed.

(** ** More on the patterns *)

Section GreedyPlusMore.
Variable R : Type.
Variable c : cclass.
Variable k : string -> string -> option R.

(** Whatever a greedy [+] hands on, it has consumed at least one
    character. *)
Lemma plus_greedy_consumes (s acc : string) (r : R) :
  plus_greedy c k acc s = Some r ->
  exists txt s', txt <> "" /\ k (acc ++ txt) s' = Some r.
Proof.
  revert acc; induction s as [|a s IH]; intros acc H; simpl in H;
    [discriminate|].
  destruct (accepts c (String a s)); [|discriminate].
  destruct (plus_greedy c k (acc ++ String a "") s) eqn:E.
  - inversion H; subst. destruct (IH _ E) as (txt & s' & Hne & Hk).
    exists (String a txt), s'. split; [discriminate|].
    now rewrite append_assoc in Hk.
  - exists (String a ""), s. split; [discriminate | assumption].
Qed.
End GreedyPlusMore.

Lemma js_match_None (r : regex) (s : string) :
  (forall pre t, s = pre ++ t -> match_at r t None = None) ->
  js_match r s = None.
Proof.
  induction s as [|a s IH]; intros H; simpl.
  - now rewrite (H "" "" eq_refl).
  - rewrite (H "" (String a s) eq_refl). apply IH.
    intros pre t ->. now apply (H (String a pre) t).
Qed.

Lemma js_match_suffix (r : regex) (s : string) (g : option string) :
  js_match r s = Some g ->
  exists pre t, s = pre ++ t /\ match_at r t None = Some g.
Proof.
  induction s as [|a s IH]; simpl.
  - destruct (match_at r "" None) eqn:E; [|discriminate].
    intros H; inversion H; subst. now exists "", "".
  - destruct (match_at r (String a s) None) eqn:E.
    + intros H; inversion H; subst. now exists "", (String a s).
    + intros H. destruct (IH H) as (pre & t & -> & Ht).
      now exists (String a pre), t.
Qed.

(** A pattern that opens with literal text matches only where the text
    occurs. *)
Lemma js_match_opens_with (m : string) (r : regex) (s : string) g :
  js_match (Lit m :: r) s = Some g -> contains m s.
Proof.
  intros H. apply js_match_suffix in H as (pre & t & -> & H). simpl in H.
  destruct (strip_prefix m t) as [post|] eqn:E; [|discriminate].
  apply strip_prefix_Some in E as ->. now exists pre, post.
Qed.

Lemma js_match_without (m : string) (r : regex) (s : string) :
  ~ contains m s -> js_match (Lit m :: r) s = None.
Proof.
  intros H. destruct (js_match (Lit m :: r) s) eqn:E; [|reflexivity].
  now apply js_match_opens_with in E.
Qed.

Lemma find_first_Some (m s pre post : string) :
  find_first m s = Some (pre, post) -> s = pre ++ m ++ post.
Proof.
  revert pre; induction s as [|a s IH]; intros pre; simpl.
  - destruct (strip_prefix m "") eqn:E; [|discriminate].
    intros H; inversion H; subst. now apply strip_prefix_Some in E.
  - destruct (strip_prefix m (String a s)) eqn:E.
    + intros H; inversion H; subst. now apply strip_prefix_Some in E.
    + destruct (find_first m s) as [[pre' post']|]; [|discriminate].
      intros H; inversion H; subst. now rewrite (IH pre' eq_refl).
Qed.

(** A pattern that opens with literal text and matches right after the
    first occurrence of the text matches there. *)
Lemma js_match_at_first (m : string) (r : regex) (s pre post : string) g :
  find_first m s = Some (pre, post) ->
  match_at r post None = Some g ->
  js_match (Lit m :: r) s = Some g.
Proof.
  revert pre; induction s as [|a s IH]; intros pre; simpl.
  - destruct (strip_prefix m "") eqn:E; [|discriminate].
    intros H Hm; inversion H; subst. now rewrite Hm.
  - destruct (strip_prefix m (String a s)) eqn:E.
    + intros H Hm; inversion H; subst. now rewrite Hm.
    + destruct (find_first m s) as [[pre' post']|]; [|discriminate].
      intros H Hm; inversion H; subst. now apply (IH pre').
Qed.

(** [[^]+?] before literal text stops at the first occurrence of the text
    that leaves it a character. *)
Lemma plus_lazy_until_gen (m : string) (k : string -> string -> option (option string)) :
  (forall txt s', k txt s' = match strip_prefix m s' with
                             | Some _ => Some (Some txt)
                             | None => None
                             end) ->
  forall (s acc : string) (x : ascii),
    plus_lazy AnyChar k acc (String x s)
    = match find_first m s with
      | Some (i, _) => Some (Some (acc ++ String x i))
      | None => None
      end.
Proof.
  intros Hk. induction s as [|y s IH]; intros acc x.
  - cbn [plus_lazy accepts find_first]. rewrite Hk.
    destruct (strip_prefix m ""); reflexivity.
  - cbn [plus_lazy accepts find_first] in *. rewrite Hk.
    destruct (strip_prefix m (String y s)) eqn:E; [reflexivity|].
    rewrite IH.
    destruct (find_first m s) as [[i post]|]; [|reflexivity].
    now rewrite append_assoc.
Qed.

Lemma plus_lazy_until (m : string) (s acc : string) (x : ascii) :
  plus_lazy AnyChar
            (fun txt s' => match_at [Lit m] s' (Some txt)) acc (String x s)
  = match find_first m s with
    | Some (i, _) => Some (Some (acc ++ String x i))
    | None => None
    end.
Proof.
  apply plus_lazy_until_gen. intros txt s'. simpl.
  destruct (strip_prefix m s'); reflexivity.
Qed.

Lemma plus_greedy_eq (R : Type) (c : cclass) (k : string -> string -> option R)
      (acc s : string) (a : ascii) :
  plus_greedy c k acc (String a s)
  = if accepts c (String a s) then
      match plus_greedy c k (acc ++ String a "") s with
      | Some r => Some r
      | None => k (acc ++ String a "") s
      end
    else None.
Proof. reflexivity. Qed.

Lemma take_run_eq (c : cclass) (s : string) (a : ascii) :
  take_run c (String a s)
  = if accepts c (String a s) then String a (take_run c s) else "".
Proof. reflexivity. Qed.

(** A greedy [+] that ends the pattern takes all it accepts. *)
Lemma plus_greedy_to_the_end (c : cclass) (s acc : string) (x : ascii) :
  accepts c (String x s) = true ->
  plus_greedy c (fun txt s' => match_at [] s' (Some txt)) acc (String x s)
  = Some (Some (acc ++ take_run c (String x s))).
Proof.
  revert acc x; induction s as [|y s IH]; intros acc x Hx.
  - rewrite plus_greedy_eq, take_run_eq, Hx. reflexivity.
  - rewrite plus_greedy_eq, take_run_eq, Hx.
    destruct (accepts c (String y s)) eqn:Hy.
    + rewrite (IH _ y Hy). now rewrite append_assoc.
    + rewrite plus_greedy_eq, take_run_eq, Hy. reflexivity.
Qed.

(** Group 1 of [/(.+);/] is a non-empty string. *)
Lemma cookie_group (s : string) (g : option string) :
  js_match re_cookie s = Some g -> exists c, g = Some c /\ c <> "".
Proof.
  intros H. apply js_match_suffix in H as (pre & t & _ & H).
  unfold re_cookie, match_at in H.
  apply plus_greedy_consumes in H as (txt & s' & Hne & H).
  destruct (strip_prefix ";" s'); [|discriminate].
  inversion H; subst. now exists txt.
Qed.

(** Without a semicolon [/(.+);/] does not match. *)
Lemma cookie_without_semicolon (s : string) :
  no_semicolon s = true -> js_match re_cookie s = None.
Proof.
  intros H. apply js_match_None. intros pre t ->.
  unfold no_semicolon in H. rewrite all_chars_app in H.
  apply andb_prop in H as [_ Ht].
  unfold re_cookie, match_at. apply plus_greedy_None.
  intros w v' _ -> _. rewrite all_chars_app in Ht.
  apply andb_prop in Ht as [_ Hv].
  now rewrite (no_semicolon_strip _ Hv).
Qed.

(** ** The answers to a login *)

Lemma app_assoc4 (A : Type) (a b c d : list A) :
  (((a ++ b) ++ c) ++ d = a ++ b ++ c ++ d)%list.
Proof. now rewrite <- !app_assoc. Qed.

Lemma login_succeeds (w : World) response body rest first more g :
  failSafe (self w) = false ->
  nullish (cookie (self w)) = true ->
  network w = NetOk response body :: rest ->
  matches re_NOT body = false ->
  set_cookie response = Some (first :: more) ->
  js_match re_cookie first = Some g ->
  getAuthenticationCookie w
  = (Called (Ok (js_of_group g)), after_login w (NetOk response body) g rest).
Proof.
  intros Hf Hc Hn Hb Hh Hg.
  run_login Hf Hc. rewrite Hn. unfold bind at 1. rewrite when_debug_run, Hb, Hh, Hg.
  unfold bind at 1, modify_self. unfold bind at 1. rewrite debugLog_run.
  unfold ret, after_login, cookie_line. simpl. now rewrite <- !app_assoc.
Qed.

Lemma login_is_rejected (w : World) response body rest :
  failSafe (self w) = false ->
  nullish (cookie (self w)) = true ->
  network w = NetOk response body :: rest ->
  matches re_NOT body = true ->
  getAuthenticationCookie w
  = (Called (Err (new_Error (rejection_reason body))),
     after_rejected w (NetOk response body) (rejection_reason body) rest).
Proof.
  intros Hf Hc Hn Hb.
  run_login Hf Hc. rewrite Hn. unfold bind at 1. rewrite when_debug_run, Hb.
  unfold bind, modify_self, log, emit, ret, after_rejected. simpl.
  unfold rejection_reason, lockout_reason, default_reason.
  destruct (js_match re_time_left body); now rewrite <- !app_assoc.
Qed.

(** X1.  A rejection that names no lockout time: the callback gets the
    error "Invalid PowerLink2 username or password provided", and the same
    line goes to [self.log] whether or not [debug] is set; no cookie is
    stored, whatever headers the answer carries. *)
Theorem rejection_without_lockout (w : World) response body rest :
  failSafe (self w) = false ->
  nullish (cookie (self w)) = true ->
  network w = NetOk response body :: rest ->
  contains "NOT::" body ->
  ~ contains "time left:" body ->
  exists w1,
    getAuthenticationCookie w = (Called (Err (new_Error default_reason)), w1)
    /\ In (Log default_reason) (trace w1)
    /\ cookie (self w1) = cookie (self w)
    /\ failSafe (self w1) = true
    /\ network w1 = rest.
Proof.
  intros Hf Hc Hn Hb Ht. apply matches_lit in Hb.
  rewrite (login_is_rejected w Hf Hc Hn Hb).
  assert (Hr : rejection_reason body = default_reason).
  { unfold rejection_reason, re_time_left. now rewrite (js_match_without _ Ht). }
  rewrite Hr.
  eexists; split; [reflexivity|]. repeat split.
  unfold after_rejected; cbn [trace]. rewrite !in_app_iff. right; right; right. apply in_eq.
Qed.

Lemma rejection_without_lockout_witness :
  exists w1,
    getAuthenticationCookie (fresh [NetOk (mkResponse None) "[NOT::]"; login_ok])
    = (Called (Err (new_Error default_reason)), w1)
    /\ In (Log default_reason) (trace w1)
    /\ cookie (self w1) = JsUndefined
    /\ failSafe (self w1) = true
    /\ network w1 = [login_ok].
Proof.
  apply (@rejection_without_lockout
           (fresh [NetOk (mkResponse None) "[NOT::]"; login_ok])
           (mkResponse None) "[NOT::]" [login_ok]);
    try reflexivity.
  - now exists "[", "]".
  - apply matches_lit_false. reflexivity.
Defined.

(** X2.  A rejection that names a lockout time: the reason handed to the
    callback and logged is "Locked out for", then the rest of the line that
    follows the first "time left:" of the body, then the advice to restart. *)
Theorem rejection_with_lockout (w : World) response body rest pre post :
  failSafe (self w) = false ->
  nullish (cookie (self w)) = true ->
  network w = NetOk response body :: rest ->
  contains "NOT::" body ->
  find_first "time left:" body = Some (pre, post) ->
  take_line post <> "" ->
  exists w1,
    getAuthenticationCookie w
    = (Called (Err (new_Error (lockout_reason (take_line post)))), w1)
    /\ In (Log (lockout_reason (take_line post))) (trace w1)
    /\ failSafe (self w1) = true.
Proof.
  intros Hf Hc Hn Hb Hfind Hline. apply matches_lit in Hb.
  rewrite (login_is_rejected w Hf Hc Hn Hb).
  assert (Hm : js_match re_time_left body = Some (Some (take_line post))).
  { apply (@js_match_at_first "time left:" [Plus true (NotLineTerminator Utf8) true]
                                body pre post _ Hfind).
    destruct post as [|x post]; [now elim Hline|].
    unfold take_line in *.
    change (match_at [Plus true (NotLineTerminator Utf8) true] (String x post) None)
      with (plus_greedy (NotLineTerminator Utf8)
                        (fun txt s' => match_at [] s' (Some txt)) "" (String x post)).
    destruct (accepts (NotLineTerminator Utf8) (String x post)) eqn:Hx.
    - now rewrite (@plus_greedy_to_the_end (NotLineTerminator Utf8) post "" x Hx).
    - rewrite take_run_eq, Hx in Hline. now elim Hline. }
  assert (Hr : rejection_reason body = lockout_reason (take_line post)).
  { unfold rejection_reason. now rewrite Hm. }
  rewrite Hr.
  eexists; split; [reflexivity|]. split; [|reflexivity].
  unfold after_rejected; cbn [trace]. rewrite !in_app_iff. right; right; right. apply in_eq.
Qed.

Lemma rejection_with_lockout_witness :
  exists w1,
    getAuthenticationCookie (fresh [login_rejected])
    = (Called (Err (new_Error (lockout_reason " 5 minutes"))), w1)
    /\ In (Log (lockout_reason " 5 minutes")) (trace w1)
    /\ failSafe (self w1) = true.
Proof.
  apply (@rejection_with_lockout (fresh [login_rejected]) (mkResponse None)
           "[NOT::] time left: 5 minutes" [] "[NOT::] " " 5 minutes");
    try reflexivity.
  - now exists "[", "] time left: 5 minutes".
  - discriminate.
Defined.

(** X3.  A login answer without the rejection marker that carries no
    set-cookie header, an empty one, or a first value without a semicolon:
    an exception escapes, the callback is not invoked, and the client is as
    it was, with no cookie and the fail-safe off. *)
Theorem login_without_cookie_raises (w : World) response body rest :
  failSafe (self w) = false ->
  nullish (cookie (self w)) = true ->
  network w = NetOk response body :: rest ->
  ~ contains "NOT::" body ->
  (set_cookie response = None
   \/ set_cookie response = Some []
   \/ exists first more, set_cookie response = Some (first :: more)
                         /\ no_semicolon first = true) ->
  exists e,
    getAuthenticationCookie w
    = (Threw e, after_answer w (NetOk response body) rest).
Proof.
  intros Hf Hc Hn Hb Hh. apply matches_lit_false in Hb.
  change (matches re_NOT body = false) in Hb.
  run_login Hf Hc. rewrite Hn. unfold bind at 1. rewrite when_debug_run, Hb.
  unfold after_answer.
  destruct Hh as [->|[->|(first & more & -> & Hs)]].
  - eexists. unfold throw. simpl. now rewrite <- !app_assoc.
  - eexists. unfold throw. simpl. now rewrite <- !app_assoc.
  - rewrite (cookie_without_semicolon _ Hs).
    eexists. unfold throw. simpl. now rewrite <- !app_assoc.
Qed.

Lemma login_without_cookie_raises_witness :
  exists e,
    getAuthenticationCookie (fresh [NetOk (mkResponse (Some ["PowerLink=abc"])) "OK"])
    = (Threw e,
       after_answer (fresh [NetOk (mkResponse (Some ["PowerLink=abc"])) "OK"])
                    (NetOk (mkResponse (Some ["PowerLink=abc"])) "OK") []).
Proof.
  apply (@login_without_cookie_raises
           (fresh [NetOk (mkResponse (Some ["PowerLink=abc"])) "OK"])
           (mkResponse (Some ["PowerLink=abc"])) "OK" []);
    try reflexivity.
  - apply matches_lit_false. reflexivity.
  - right; right. now exists "PowerLink=abc", [].
Defined.

(** What a call that hands over a cookie leaves behind. *)
Lemma getAuthenticationCookie_Ok_cookie (w w1 : World) (c : JsValue) :
  getAuthenticationCookie w = (Called (Ok c), w1) ->
  cookie (self w1) = c /\ nullish c = false /\ failSafe (self w1) = false.
Proof.
  unfold getAuthenticationCookie, bind at 1, get_self; cbv beta iota.
  destruct (failSafe (self w)) eqn:Hf; [discriminate|].
  destruct (nullish (cookie (self w))) eqn:Hc; cbv beta iota delta [negb].
  2:{ unfold ret. intros H; inversion H; subst. now repeat split. }
  unfold bind at 1, request; cbv beta iota.
  destruct (network w) as [|r rest]; [discriminate|].
  unfold bind at 1. rewrite when_debug_run.
  destruct r as [error|response body]; [discriminate|].
  destruct (matches re_NOT body).
  - unfold bind, modify_self, log, emit, ret. discriminate.
  - destruct (set_cookie response) as [[|first more]|]; try discriminate.
    destruct (js_match re_cookie first) as [g|] eqn:Hg; [|discriminate].
    destruct (cookie_group _ Hg) as (c' & -> & _).
    unfold bind at 1, modify_self. unfold bind at 1. rewrite debugLog_run.
    unfold ret. intros H; inversion H; subst. now repeat split.
Qed.

(** X4.  Once a call has handed over a cookie, the next call hands over the
    same cookie at once: it sends nothing, consumes no answer and leaves the
    world as it is.  The cookie is the one stored, and it is neither
    [undefined] nor [null]. *)
Theorem cookie_is_reused (w w1 : World) (c : JsValue) :
  getAuthenticationCookie w = (Called (Ok c), w1) ->
  getAuthenticationCookie w1 = (Called (Ok c), w1)
  /\ cookie (self w1) = c
  /\ nullish c = false.
Proof.
  intros H. destruct (getAuthenticationCookie_Ok_cookie _ H) as (Hc & Hn & Hf).
  repeat split; try assumption.
  unfold getAuthenticationCookie, bind, get_self. now rewrite Hf, Hc, Hn.
Qed.

Lemma cookie_is_reused_witness :
  let w1 := snd (getAuthenticationCookie (fresh [login_ok; status_ready])) in
  getAuthenticationCookie w1 = (Called (Ok (JsString "PowerLink=abc")), w1)
  /\ cookie (self w1) = JsString "PowerLink=abc"
  /\ nullish (JsString "PowerLink=abc") = false.
Proof.
  intros w1.
  apply (@cookie_is_reused (fresh [login_ok; status_ready]) w1
                           (JsString "PowerLink=abc")).
  reflexivity.
Defined.

(** X5.  The fail-safe goes on in one case only: a call that finds it off
    sets it exactly when it had no cookie, sent the login request, and got an
    answer whose body contains [NOT::].  A transport error, a missing
    answer or an answer without a usable cookie leave it off. *)
Theorem failSafe_set_only_by_rejection (w : World) :
  failSafe (self w) = false ->
  (failSafe (self (snd (getAuthenticationCookie w))) = true
   <-> nullish (cookie (self w)) = true
       /\ exists response body rest,
            network w = NetOk response body :: rest /\ contains "NOT::" body).
Proof.
  intros Hf. split.
  - unfold getAuthenticationCookie, bind at 1, get_self; cbv beta iota.
    rewrite Hf.
    destruct (nullish (cookie (self w))) eqn:Hc; cbv beta iota delta [negb].
    2:{ simpl. congruence. }
    unfold bind at 1, request; cbv beta iota.
    destruct (network w) as [|r rest]; [simpl; congruence|].
    unfold bind at 1. rewrite when_debug_run.
    destruct r as [error|response body]; [simpl; congruence|].
    destruct (matches re_NOT body) eqn:Hb.
    + intros _. split; [reflexivity|]. exists response, body, rest.
      split; [reflexivity|]. now apply matches_lit.
    + destruct (set_cookie response) as [[|first more]|]; try (simpl; congruence).
      destruct (js_match re_cookie first) as [g|]; [|simpl; congruence].
      unfold bind at 1, modify_self. unfold bind at 1. rewrite debugLog_run.
      simpl. congruence.
  - intros (Hc & response & body & rest & Hn & Hb). apply matches_lit in Hb.
    now rewrite (login_is_rejected w Hf Hc Hn Hb).
Qed.

(** ** What the operations leave alone *)

Section Frame.
Variable R : Client -> Client -> Prop.
Hypothesis R_refl : forall c, R c c.
Hypothesis R_trans : forall a b c, R a b -> R b c -> R a c.

Lemma preserves_ret (A : Type) (a : A) : preserves R (ret a).
Proof. intros w. apply R_refl. Qed.

Lemma preserves_throw (A : Type) (e : JsException) : preserves R (@throw A e).
Proof. intros w. apply R_refl. Qed.

Lemma preserves_get_self : preserves R get_self.
Proof. intros w. apply R_refl. Qed.

Lemma preserves_emit (e : Event) : preserves R (emit e).
Proof. intros w. apply R_refl. Qed.

Lemma preserves_request (config : Request.t) : preserves R (request config).
Proof. intros w. unfold request. destruct (network w); apply R_refl. Qed.

Lemma preserves_waiting (A : Type) (ms : Z) :
  preserves R (fun w => (@AwaitingTimer A ms, w)).
Proof. intros w. apply R_refl. Qed.

Lemma preserves_bind (A B : Type) (m : M A) (f : A -> M B) :
  preserves R m -> (forall a, preserves R (f a)) -> preserves R (bind m f).
Proof.
  intros Hm Hf w. unfold bind. specialize (Hm w).
  destruct (m w) as [[a|e| |ms] w']; simpl in *; try assumption.
  eapply R_trans; [exact Hm | apply Hf].
Qed.

Lemma preserves_modify (f : Client -> Client) :
  (forall c, R c (f c)) -> preserves R (modify_self f).
Proof. intros H w. apply H. Qed.

Lemma preserves_log_lines (ls : list string) : preserves R (log_lines ls).
Proof.
  induction ls as [|l ls IH]; simpl.
  - apply preserves_ret.
  - apply preserves_bind; [apply preserves_emit | intros _; exact IH].
Qed.

Lemma preserves_when_debug (ls : list string) : preserves R (when_debug ls).
Proof.
  apply preserves_bind; [apply preserves_get_self|]. intros s.
  destruct (truthy (debug s)); [apply preserves_log_lines | apply preserves_ret].
Qed.

Lemma preserves_debugLog (l : string) : preserves R (debugLog l).
Proof.
  apply preserves_bind; [apply preserves_get_self|]. intros s.
  destruct (truthy (debug s)); [apply preserves_emit | apply preserves_ret].
Qed.

Ltac frame :=
  repeat first
    [ apply preserves_ret | apply preserves_throw | apply preserves_get_self
    | apply preserves_emit | apply preserves_request | apply preserves_waiting
    | apply preserves_when_debug | apply preserves_debugLog
    | apply preserves_modify; solve [auto]
    | apply preserves_bind; [|intros ?]
    | match goal with
      | |- preserves _ (if ?b then _ else _) => destruct b
      | |- preserves _ (match ?x with _ => _ end) => destruct x
      end ].

(** The session: what the login and the stale answer assign. *)
Section Session.
Hypothesis R_failSafe : forall c, R c (set_failSafe true c).
Hypothesis R_cookie : forall v c, R c (set_cookie_field v c).

Lemma preserves_getAuthenticationCookie : preserves R getAuthenticationCookie.
Proof. unfold getAuthenticationCookie, log. frame. Qed.

Lemma preserves_authenticatedRequest_once (config : Request.t) :
  preserves R (authenticatedRequest_once config).
Proof.
  unfold authenticatedRequest_once.
  apply preserves_bind; [apply preserves_getAuthenticationCookie|].
  intros r. cbv zeta. frame.
Qed.

Lemma preserves_authenticatedRequest (n : nat) (config : Request.t) :
  preserves R (authenticatedRequest n config).
Proof.
  revert config; induction n as [|n IH]; intros config; simpl;
    (apply preserves_bind; [apply preserves_authenticatedRequest_once|]);
    intros [r|ms config']; frame. apply IH.
Qed.

Lemma preserves_setStatus (n : nat) (status : string) :
  preserves R (setStatus n status).
Proof.
  unfold setStatus. destruct (nullish (js_get stringMap status)); [frame|].
  apply preserves_bind; [apply preserves_get_self|]. intros s.
  apply preserves_bind; [apply preserves_authenticatedRequest|].
  intros r. unfold setStatus_callback. frame.
Qed.
End Session.

(** The status: what [getStatus]'s callback assigns. *)
Section Status.
Hypothesis R_lastStatus : forall v c, R c (set_lastStatus v c).
Hypothesis R_getStatusIndex : forall v c, R c (set_getStatusIndex v c).

Lemma preserves_getStatus_callback r : preserves R (getStatus_callback r).
Proof. unfold getStatus_callback, log. frame. Qed.

Lemma preserves_deliver rs (w : World) : R (self w) (self (deliver rs w)).
Proof.
  revert w; induction rs as [|r rs IH]; intros w; simpl; [apply R_refl|].
  eapply R_trans; [apply preserves_getStatus_callback | apply IH].
Qed.
End Status.

Section Everything.
Hypothesis R_failSafe : forall c, R c (set_failSafe true c).
Hypothesis R_cookie : forall v c, R c (set_cookie_field v c).
Hypothesis R_lastStatus : forall v c, R c (set_lastStatus v c).
Hypothesis R_getStatusIndex : forall v c, R c (set_getStatusIndex v c).

Lemma preserves_getStatus (n : nat) : preserves R (getStatus n).
Proof.
  unfold getStatus.
  apply preserves_bind; [apply preserves_get_self|]. intros s.
  apply preserves_bind; [now apply preserves_authenticatedRequest|].
  intros r. now apply preserves_getStatus_callback.
Qed.

Lemma preserves_perform (op : Operation) (w : World) :
  R (self w) (self (snd (perform op w))).
Proof.
  destruct op as [|n|n status]; simpl.
  - pose proof (preserves_getAuthenticationCookie R_failSafe R_cookie w) as H.
    now destruct (getAuthenticationCookie w).
  - pose proof (preserves_getStatus n w) as H. now destruct (getStatus n w).
  - pose proof (preserves_setStatus R_failSafe R_cookie n status w) as H.
    now destruct (setStatus n status w).
Qed.

Lemma preserves_perform_all (ops : list Operation) (w : World) :
  R (self w) (self (snd (perform_all ops w))).
Proof.
  revert w; induction ops as [|op ops IH]; intros w; simpl; [apply R_refl|].
  pose proof (preserves_perform op w) as H1.
  destruct (perform op w) as [o w1]. specialize (IH w1).
  destruct (perform_all ops w1) as [os w2]. simpl in *.
  eapply R_trans; eassumption.
Qed.
End Everything.
End Frame.

(** ** Invariants *)

Lemma same_config_refl c : same_config c c.
Proof. now repeat split. Qed.

Lemma same_config_trans a b c : same_config a b -> same_config b c -> same_config a c.
Proof.
  intros (A1 & A2 & A3 & A4 & A5) (B1 & B2 & B3 & B4 & B5).
  repeat split; congruence.
Qed.

Lemma same_session_refl c : same_session c c.
Proof. now split. Qed.

Lemma same_session_trans a b c :
  same_session a b -> same_session b c -> same_session a c.
Proof. intros [A1 A2] [B1 B2]; split; congruence. Qed.

Lemma same_status_refl c : same_status c c.
Proof. now split. Qed.

Lemma same_status_trans a b c :
  same_status a b -> same_status b c -> same_status a c.
Proof. intros [A1 A2] [B1 B2]; split; congruence. Qed.

(** X6.  Whatever operations run and whatever answers [getStatus]'s
    callback is handed, the fields the constructor read off its [config]
    argument keep their values: [debug], [baseURL], [username], [password]
    and [timeout].  For a client as built, the timeout is the option when
    it is truthy and 2500 otherwise, and is truthy either way. *)
Theorem configuration_is_immutable
        (config : Options.t) net tr (ops : list Operation)
        (rs : list (Callback (Response * string))) :
  let w := mkWorld (PowerLink2 config) net tr in
  let w' := deliver rs (snd (perform_all ops w)) in
  debug (self w') = Options.debug config
  /\ baseURL (self w') = "http://" ++ Options.host config
  /\ username (self w') = Options.username config
  /\ password (self w') = Options.password config
  /\ timeout (self w')
     = (if truthy (Options.timeout config) then Options.timeout config
        else JsNumber 2500)
  /\ truthy (timeout (self w')) = true.
Proof.
  intros w w'.
  assert (H : same_config (self w) (self w')).
  { apply same_config_trans with (self (snd (perform_all ops w))).
    - apply preserves_perform_all;
        try exact same_config_refl; try exact same_config_trans;
        intros; now repeat split.
    - apply preserves_deliver;
        try exact same_config_refl; try exact same_config_trans;
        intros; now repeat split. }
  destruct H as (H1 & H2 & H3 & H4 & H5).
  rewrite H1, H2, H3, H4, H5. simpl. repeat split.
  unfold js_or. destruct (truthy (Options.timeout config)) eqn:E; [exact E | reflexivity].
Qed.

(** X7.  Neither [getAuthenticationCookie] nor [authenticatedRequest] nor
    [setStatus] touches [lastStatus] or the status cursor, whatever the
    network answers. *)
Theorem status_is_left_alone (n : nat) (config : Request.t) (status : string)
        (w : World) :
  same_status (self w) (self (snd (getAuthenticationCookie w)))
  /\ same_status (self w) (self (snd (authenticatedRequest n config w)))
  /\ same_status (self w) (self (snd (setStatus n status w))).
Proof.
  repeat split;
    try (apply (@preserves_getAuthenticationCookie same_status));
    try (apply (@preserves_authenticatedRequest same_status));
    try (apply (@preserves_setStatus same_status));
    try exact same_status_refl; try exact same_status_trans; intros; now split.
Qed.

(** X8.  [getStatus]'s callback never touches the cookie or the fail-safe,
    whatever answer it is handed and however it ends. *)
Theorem session_is_left_alone (rs : list (Callback (Response * string)))
        (w : World) :
  same_session (self w) (self (deliver rs w)).
Proof.
  apply preserves_deliver;
    try exact same_session_refl; try exact same_session_trans; intros; now split.
Qed.

(** ** Calls that cannot succeed *)

(** X9.  On no client, against no script and after no number of retries
    does [getStatus] hand a status to its callback or [setStatus] report
    success: the request either is not reached or raises at line 219. *)
Theorem operations_never_succeed (n : nat) (status : string) (w : World) :
  (forall v, fst (getStatus n w) <> Called (Ok v))
  /\ fst (setStatus n status w) <> Called (Ok tt).
Proof.
  split.
  - intros v.
    destruct (@without_timeout n (getStatus_request (self w)) w eq_refl) as [Hno _].
    unfold getStatus, bind, get_self. cbv beta iota.
    destruct (authenticatedRequest n (getStatus_request (self w)) w)
      as [[[e|x]|e| |ms] w1]; simpl in *; try discriminate.
    now destruct (Hno x).
  - unfold setStatus. destruct (nullish (js_get stringMap status)); [discriminate|].
    destruct (@without_timeout n (setStatus_request (self w) (js_get stringMap status))
                               w eq_refl) as [Hno _].
    unfold bind, get_self. cbv beta iota.
    destruct (authenticatedRequest n _ w) as [[[e|[r body]]|e| |ms] w1];
      cbn [fst snd] in *; try discriminate.
    + unfold setStatus_callback, bind. rewrite debugLog_run. discriminate.
    + now destruct (Hno (r, body)).
Qed.

(** ** More on authenticated requests *)

Lemma own_property_set_other (o : JsObject) (k k' : string) (v : JsValue) :
  k' <> k -> own_property (js_set o k v) k' = own_property o k'.
Proof.
  intros Hne. induction o as [|[k0 v0] o IH]; simpl.
  - destruct (String.eqb_spec k' k); [contradiction | reflexivity].
  - destruct (String.eqb_spec k k0) as [->|Hk]; simpl.
    + destruct (String.eqb_spec k' k0); [contradiction | reflexivity].
    + now rewrite IH.
Qed.

Lemma js_get_set_other (o : JsObject) (k k' : string) (v : JsValue) :
  k' <> k -> js_get (js_set o k v) k' = js_get o k'.
Proof. intros H. unfold js_get. now rewrite own_property_set_other. Qed.

Lemma authenticatedRequest_unfold (n : nat) (config : Request.t) :
  authenticatedRequest n config
  = bind (authenticatedRequest_once config)
         (fun a => match a with
                   | Finished r => ret r
                   | Retry ms config' =>
                       match n with
                       | O => fun w => (AwaitingTimer ms, w)
                       | S m => authenticatedRequest m config'
                       end
                   end).
Proof. now destruct n. Qed.

(** X10.  An answer that is not taken for a stale session is handed to the
    callback as it came, be it a transport error or a response with its
    body; one request went out, the cookie stays cached, and no timer is
    set, whatever the number of retries allowed. *)
Theorem answer_passes_through
        (n : nat) (config : Request.t) (w w1 : World) c r rest :
  getAuthenticationCookie w = (Called (Ok c), w1) ->
  truthy (Request.timeout config) = true ->
  network w1 = r :: rest ->
  not_stale r ->
  authenticatedRequest n config w
  = (Called (passed_on r),
     mkWorld (self w1) rest (trace w1 ++ [Sent (with_cookie config c)])%list)
  /\ cookie (self w1) = c.
Proof.
  intros Hc Ht Hn Hr. split; [|exact (proj1 (getAuthenticationCookie_Ok_cookie _ Hc))].
  rewrite authenticatedRequest_unfold.
  unfold bind at 1, authenticatedRequest_once, bind at 1. rewrite Hc.
  cbv beta iota. change (Request.timeout (with_cookie config c))
    with (Request.timeout config). rewrite Ht. cbv beta iota delta [negb].
  unfold bind at 1, request. cbv beta iota. rewrite Hn.
  destruct r as [e|response body]; [reflexivity|].
  destruct Hr as [Hne Hre].
  apply matches_lit_false in Hre. change (matches re_RELOGIN body = false) in Hre.
  rewrite Hre. destruct (String.eqb_spec body ""); [contradiction | reflexivity].
Qed.

Lemma answer_passes_through_witness :
  authenticatedRequest 0 example_request
                       (fresh [login_ok; NetError (new_Error "ESOCKETTIMEDOUT")])
  = (Called (Err (new_Error "ESOCKETTIMEDOUT")),
     mkWorld (self (snd (getAuthenticationCookie (fresh [login_ok]))))
             []
             (trace (snd (getAuthenticationCookie (fresh [login_ok])))
                    ++ [Sent (with_cookie example_request (JsString "PowerLink=abc"))])%list)
  /\ cookie (self (snd (getAuthenticationCookie (fresh [login_ok]))))
     = JsString "PowerLink=abc".
Proof.
  apply (@answer_passes_through 0 example_request
           (fresh [login_ok; NetError (new_Error "ESOCKETTIMEDOUT")])
           (mkWorld (self (snd (getAuthenticationCookie (fresh [login_ok]))))
                    [NetError (new_Error "ESOCKETTIMEDOUT")]
                    (trace (snd (getAuthenticationCookie (fresh [login_ok])))))
           (JsString "PowerLink=abc") (NetError (new_Error "ESOCKETTIMEDOUT")) []).
  - reflexivity.
  - reflexivity.
  - reflexivity.
  - exact I.
Defined.

(** X11.  The request that goes out is the caller's with the cookie put
    under the header [Cookie]: a [Cookie] header of the caller's is
    replaced, every other header keeps its value, and URL, method, form and
    timeout are the caller's. *)
Theorem cookie_header_is_injected (config : Request.t) (w w1 : World) c :
  getAuthenticationCookie w = (Called (Ok c), w1) ->
  truthy (Request.timeout config) = true ->
  exists r,
    sent (trace (snd (authenticatedRequest_once config w)))
    = (sent (trace w1) ++ [r])%list
    /\ js_get (headers_of r) "Cookie" = c
    /\ (forall k, k <> "Cookie" -> js_get (headers_of r) k = js_get (headers_of config) k)
    /\ Request.url r = Request.url config
    /\ Request.method r = Request.method config
    /\ Request.form r = Request.form config
    /\ Request.timeout r = Request.timeout config.
Proof.
  intros Hc Ht. exists (with_cookie config c).
  split; [now apply authenticatedRequest_once_sends|].
  split; [apply js_get_set|].
  split; [|now repeat split].
  intros k Hk. unfold headers_of, with_cookie; simpl.
  now apply js_get_set_other.
Qed.

Lemma cookie_header_is_injected_witness :
  exists r,
    sent (trace (snd (authenticatedRequest_once request_with_headers
                                                (fresh [login_ok; status_ready]))))
    = (sent (trace (snd (getAuthenticationCookie (fresh [login_ok; status_ready]))))
            ++ [r])%list
    /\ js_get (headers_of r) "Cookie" = JsString "PowerLink=abc"
    /\ (forall k, k <> "Cookie" ->
                  js_get (headers_of r) k = js_get (headers_of request_with_headers) k)
    /\ Request.url r = Request.url request_with_headers
    /\ Request.method r = Request.method request_with_headers
    /\ Request.form r = Request.form request_with_headers
    /\ Request.timeout r = Request.timeout request_with_headers.
Proof.
  apply (@cookie_header_is_injected request_with_headers
           (fresh [login_ok; status_ready])
           (snd (getAuthenticationCookie (fresh [login_ok; status_ready])))
           (JsString "PowerLink=abc")); reflexivity.
Defined.

(** A stale round: the login succeeds, the answer to the request is stale,
    and the client is back where it started, with the cookie [null]. *)
Lemma stale_round (config : Request.t) (w : World)
      lresponse lbody first more g response body rest :
  failSafe (self w) = false ->
  nullish (cookie (self w)) = true ->
  truthy (Request.timeout config) = true ->
  matches re_NOT lbody = false ->
  set_cookie lresponse = Some (first :: more) ->
  js_match re_cookie first = Some g ->
  body = "" \/ contains "[RELOGIN]" body ->
  network w = NetOk lresponse lbody :: NetOk response body :: rest ->
  exists w2,
    authenticatedRequest_once config w
    = (Called (Retry 3000 (with_cookie config (js_of_group g))), w2)
    /\ failSafe (self w2) = false
    /\ cookie (self w2) = JsNull
    /\ network w2 = rest
    /\ length (sent (trace w2)) = 2 + length (sent (trace w)).
Proof.
  intros Hf Hc Ht Hb Hh Hg Hs Hn.
  pose proof (login_succeeds w Hf Hc Hn Hb Hh Hg) as Hl.
  rewrite (@stale_attempt config w _ _ response body rest Hl Ht eq_refl Hs).
  eexists; split; [reflexivity|].
  split; [simpl; assumption|]. split; [reflexivity|]. split; [reflexivity|].
  unfold after_stale, after_login; cbn [trace].
  rewrite !sent_app, !sent_debug_events. cbn [sent].
  rewrite !length_app. simpl. lia.
Qed.

(** X12.  The retry has no bound.  On a script where every login succeeds
    and every answer to the request is stale, [k] times over, following the
    run through [n < k] firings of the timer finds it waiting on the timer
    once more: the callback has not been invoked, [n + 1] logins and
    [n + 1] requests have gone out, and the rest of the script is still to
    come. *)
Theorem retry_is_unbounded
        (config : Request.t) lresponse lbody first more g response body
        (k n : nat) (w : World) rest :
  truthy (Request.timeout config) = true ->
  matches re_NOT lbody = false ->
  set_cookie lresponse = Some (first :: more) ->
  js_match re_cookie first = Some g ->
  body = "" \/ contains "[RELOGIN]" body ->
  failSafe (self w) = false ->
  nullish (cookie (self w)) = true ->
  network w = (stale_rounds (NetOk lresponse lbody) (NetOk response body) k ++ rest)%list ->
  n < k ->
  exists w',
    authenticatedRequest n config w = (AwaitingTimer 3000, w')
    /\ cookie (self w') = JsNull
    /\ length (sent (trace w')) = 2 * S n + length (sent (trace w))
    /\ network w'
       = (stale_rounds (NetOk lresponse lbody) (NetOk response body) (k - S n)
                       ++ rest)%list.
Proof.
  intros Ht Hb Hh Hg Hs. revert config Ht k w.
  induction n as [|n IH]; intros config Ht k w Hf Hc Hn Hk.
  - destruct k as [|k]; [lia|]. simpl in Hn.
    destruct (stale_round config w Hf Hc Ht Hb Hh Hg Hs Hn)
      as (w2 & E & Hf2 & Hc2 & Hn2 & Hl2).
    exists w2. split; [simpl; unfold bind at 1; now rewrite E|].
    split; [assumption|]. split; [rewrite Hl2; lia|].
    replace (S k - 1) with k by lia. exact Hn2.
  - destruct k as [|k]; [lia|]. simpl in Hn.
    destruct (stale_round config w Hf Hc Ht Hb Hh Hg Hs Hn)
      as (w2 & E & Hf2 & Hc2 & Hn2 & Hl2).
    destruct (IH (with_cookie config (js_of_group g)) Ht k w2 Hf2)
      as (w' & E' & Hc' & Hl' & Hn'); [now rewrite Hc2 | exact Hn2 | lia |].
    exists w'. split; [simpl; unfold bind at 1; now rewrite E|].
    split; [assumption|]. split; [rewrite Hl', Hl2; lia | exact Hn'].
Qed.

Lemma retry_is_unbounded_witness :
  exists w',
    authenticatedRequest 2 example_request
      (fresh (stale_rounds login_ok (NetOk (mkResponse None) "") 3 ++ [status_ready])%list)
    = (AwaitingTimer 3000, w')
    /\ cookie (self w') = JsNull
    /\ length (sent (trace w')) = 2 * 3 + 0
    /\ network w'
       = (stale_rounds login_ok (NetOk (mkResponse None) "") (3 - 3)
                       ++ [status_ready])%list.
Proof.
  apply (@retry_is_unbounded example_request
           (mkResponse (Some ["PowerLink=abc; path=/"])) "OK"
           "PowerLink=abc; path=/" [] (Some "PowerLink=abc")
           (mkResponse None) "" 3 2
           (fresh (stale_rounds login_ok (NetOk (mkResponse None) "") 3
                                ++ [status_ready])%list)
           [status_ready]);
    try reflexivity.
  - now left.
  - lia.
Defined.

(** ** What goes out *)

Lemma login_request_same_config (s s' : Client) :
  same_config s s' -> login_request s' = login_request s.
Proof.
  intros (_ & H2 & H3 & H4 & H5). unfold login_request. now rewrite H2, H3, H4, H5.
Qed.

Lemma authenticatedRequest_once_same_config (config : Request.t) (w : World) :
  same_config (self w) (self (snd (authenticatedRequest_once config w))).
Proof.
  apply preserves_authenticatedRequest_once;
    try exact same_config_refl; try exact same_config_trans;
    intros; now repeat split.
Qed.

Lemma authenticatedRequest_once_requests (config : Request.t) (w w2 : World) a :
  authenticatedRequest_once config w = (a, w2) ->
  exists new,
    sent (trace w2) = (sent (trace w) ++ new)%list
    /\ Forall (login_or_with_cookie (self w) config) new
    /\ (forall ms config',
           a = Called (Retry ms config') -> exists c, config' = with_cookie config c).
Proof.
  pose proof (getAuthenticationCookie_sends w) as Hs. cbv zeta in Hs.
  assert (Hs' : exists new0,
             sent (trace (snd (getAuthenticationCookie w)))
             = (sent (trace w) ++ new0)%list
             /\ Forall (login_or_with_cookie (self w) config) new0).
  { destruct Hs as [Hs|Hs].
    - exists []. rewrite app_nil_r. now split.
    - exists [login_request (self w)]. split; [exact Hs|].
      constructor; [now left | constructor]. }
  clear Hs. destruct Hs' as (new0 & Hs & Hall).
  unfold authenticatedRequest_once, bind at 1.
  destruct (getAuthenticationCookie w) as [[[e|c]|e| |ms] w1] eqn:E;
    cbn [fst snd] in *;
    try (intros H; inversion H; subst; exists new0;
         split; [exact Hs|]; split; [exact Hall|]; discriminate).
  destruct (getAuthenticationCookie_Ok_cookie _ E) as (_ & Hnull & _).
  cbv beta iota zeta.
  change (Request.timeout (with_cookie config c)) with (Request.timeout config).
  destruct (truthy (Request.timeout config)); cbv beta iota delta [negb].
  2:{ intros H; inversion H; subst; exists new0;
      split; [exact Hs|]; split; [exact Hall|]; discriminate. }
  assert (Hall' : Forall (login_or_with_cookie (self w) config)
                         (new0 ++ [with_cookie config c])).
  { apply Forall_app; split; [exact Hall|].
    constructor; [|constructor]. right. now exists c. }
  unfold bind at 1, request. cbv beta iota.
  destruct (network w1) as [|r rest].
  { intros H; inversion H; subst. exists (new0 ++ [with_cookie config c])%list.
    cbn [trace]. rewrite sent_app, Hs, <- app_assoc.
    split; [reflexivity|]. split; [exact Hall'|]. discriminate. }
  destruct r as [error|response body].
  { intros H; inversion H; subst. exists (new0 ++ [with_cookie config c])%list.
    cbn [trace]. rewrite sent_app, Hs, <- app_assoc.
    split; [reflexivity|]. split; [exact Hall'|]. discriminate. }
  destruct (String.eqb body "" || matches re_RELOGIN body).
  - unfold bind at 1. rewrite debugLog_run.
    unfold bind, modify_self, emit, ret. cbn [fst snd trace self network].
    intros H; inversion H; subst. exists (new0 ++ [with_cookie config c])%list.
    cbn [trace].
    repeat (rewrite sent_app || rewrite sent_debug_events || rewrite app_nil_r).
    cbn [sent]. rewrite ?app_nil_r, Hs, <- app_assoc.
    split; [reflexivity|]. split; [exact Hall'|].
    intros ms config' H'; inversion H'; subst. now exists c.
  - intros H; inversion H; subst. exists (new0 ++ [with_cookie config c])%list.
    cbn [trace]. rewrite sent_app, Hs, <- app_assoc.
    split; [reflexivity|]. split; [exact Hall'|]. discriminate.
Qed.

(** X13.  Whatever the script and the number of retries, every request
    [authenticatedRequest] sends is either the login request, without
    headers, or the caller's request with a cookie that is neither
    [undefined] nor [null] as its Cookie header: the caller's request never
    goes out without a session. *)
Theorem requests_carry_a_cookie (n : nat) (config : Request.t) (w : World) :
  exists new,
    sent (trace (snd (authenticatedRequest n config w)))
    = (sent (trace w) ++ new)%list
    /\ Forall (login_or_with_cookie (self w) config) new.
Proof.
  revert config w; induction n as [|n IH]; intros config w;
    rewrite authenticatedRequest_unfold; unfold bind at 1;
    pose proof (authenticatedRequest_once_same_config config w) as Hcfg;
    destruct (authenticatedRequest_once config w) as [a w2] eqn:E;
    destruct (authenticatedRequest_once_requests _ _ E) as (new & Hs & Hall & Hre);
    destruct a as [[r|ms config']|e| |ms];
    cbn [fst snd] in *; try (now exists new).
  destruct (Hre ms config' eq_refl) as (c & ->).
  destruct (IH (with_cookie config c) w2) as (new2 & Hs2 & Hall2).
  exists (new ++ new2)%list. split; [now rewrite Hs2, Hs, app_assoc|].
  apply Forall_app; split; [exact Hall|].
  eapply Forall_impl; [|exact Hall2].
  intros r [->|(c' & Hn & ->)].
  - left. now apply login_request_same_config.
  - right. exists c'. split; [exact Hn | apply with_cookie_twice].
Qed.

(** ** The status answer *)

Section GreedyPlusSome.
Variable R : Type.
Variable c : cclass.
Variable k : string -> string -> option R.
Variable r0 : R.
Hypothesis k_const : forall txt s' r, k txt s' = Some r -> r = r0.

(** When the rest of the pattern has one result only, a greedy [+] finds it
    as soon as some run lets the rest match. *)
Lemma plus_greedy_some (u v acc : string) :
  u <> "" ->
  accepted c u v = true ->
  k (acc ++ u) v = Some r0 ->
  plus_greedy c k acc (u ++ v) = Some r0.
Proof.
  revert acc; induction u as [|a u IH]; intros acc Hne Hacc Hk; [congruence|].
  change (String a u ++ v) with (String a (u ++ v)). rewrite plus_greedy_eq.
  cbn [accepted] in Hacc. apply andb_prop in Hacc as [Ea Hu]. rewrite Ea.
  destruct (plus_greedy c k (acc ++ String a "") (u ++ v)) as [r|] eqn:E.
  - apply plus_greedy_consumes in E as (txt & s' & _ & E).
    now rewrite (@k_const _ _ _ E).
  - destruct u as [|b u].
    + exact Hk.
    + rewrite IH in E; try discriminate; try assumption.
      now rewrite append_assoc.
Qed.
End GreedyPlusSome.

(** Text that opens with [<] does not start inside text without [<]. *)
Lemma contains_after (m p t : string) :
  all_chars (fun a => negb (Ascii.eqb a "<"%char)) p = true ->
  contains (String "<"%char m) (p ++ t) -> contains (String "<"%char m) t.
Proof.
  induction p as [|x p IH]; intros Hp H; [exact H|].
  simpl in Hp. apply andb_prop in Hp as [Hx Hp]. apply IH; [exact Hp|].
  destruct H as (pre & post & H).
  change (String x p ++ t) with (String x (p ++ t)) in H.
  destruct pre as [|y pre].
  - change ("" ++ String "<"%char m ++ post) with (String "<"%char (m ++ post)) in H.
    inversion H; subst. now rewrite Ascii.eqb_refl in Hx.
  - change (String y pre ++ String "<"%char m ++ post)
      with (String y (pre ++ String "<"%char m ++ post)) in H.
    inversion H; subst. now exists pre, post.
Qed.

Lemma strip_prefix_suffix_None (m w v' t : string) :
  w <> "" ->
  String "<"%char m ++ t = w ++ v' ->
  ~ contains (String "<"%char m) t ->
  all_chars (fun a => negb (Ascii.eqb a "<"%char)) m = true ->
  strip_prefix (String "<"%char m) v' = None.
Proof.
  intros Hw Hv Hno Hm.
  destruct (strip_prefix (String "<"%char m) v') as [post|] eqn:E; [|reflexivity].
  apply strip_prefix_Some in E. subst v'.
  destruct w as [|x w]; [congruence|].
  change (String "<"%char m ++ t) with (String "<"%char (m ++ t)) in Hv.
  change (String x w ++ String "<"%char m ++ post)
    with (String x (w ++ String "<"%char m ++ post)) in Hv.
  inversion Hv; subst. elim Hno.
  apply (@contains_after m m t Hm). rewrite H1. now exists w, post.
Qed.

(** [/<system>[^]+<status>([^]+)<\/status>[^]+<\/system>/] on a body whose
    first [<system>] is followed by some text, one [<status>] element and
    some more text before [</system>]: group 1 is the text of the
    element. *)
Lemma status_capture (body pre a raw b post : string) :
  find_first "<system>" body
  = Some (pre, a ++ "<status>" ++ raw ++ "</status>" ++ b ++ "</system>" ++ post) ->
  a <> "" -> raw <> "" -> b <> "" ->
  ~ contains "<status>" (raw ++ "</status>" ++ b ++ "</system>" ++ post) ->
  ~ contains "</status>" (b ++ "</system>" ++ post) ->
  js_match re_status body = Some (Some raw).
Proof.
  intros Hfind Ha Hraw Hb Hno1 Hno2.
  apply (@js_match_at_first "<system>" _ body pre _ _ Hfind).
  cbn [match_at].
  apply plus_greedy_longest; try assumption; try apply accepted_any.
  - rewrite strip_prefix_app.
    apply plus_greedy_longest; try assumption; try apply accepted_any.
    + rewrite strip_prefix_app.
      apply plus_greedy_some with (r0 := Some raw);
        try assumption; try apply accepted_any.
      * intros txt s' r H. destruct (strip_prefix "</system>" s'); [|discriminate].
        now inversion H.
      * now rewrite strip_prefix_app.
    + intros w v' Hw Hv _.
      now rewrite (@strip_prefix_suffix_None "/status>" w v' _ Hw Hv Hno2 eq_refl).
  - intros w v' Hw Hv _.
    now rewrite (@strip_prefix_suffix_None "status>" w v' _ Hw Hv Hno1 eq_refl).
Qed.

Example status_capture_example :
  js_match re_status
           "<reply><index>12</index><system> <status>Ready</status> </system></reply>"
  = Some (Some "Ready").
Proof.
  apply (@status_capture _ "<reply><index>12</index>" " " "Ready" " " "</reply>");
    try reflexivity; try discriminate; apply matches_lit_false; reflexivity.
Qed.

(** The table of [getStatus] on a raw string that names no member of
    [Object.prototype]. *)
Lemma status_of_listed (raw : string) :
  mem_string raw Object_prototype = false ->
  exists s,
    js_or (js_get statusStringToStatus raw) (JsString UNKNOWN) = JsString s
    /\ is_status (JsString s) = true
    /\ s = (if String.eqb raw "Ready" then DISARMED
            else if String.eqb raw "NotReady" then DISARMED
            else if String.eqb raw "Exit Delay" then EXIT_DELAY
            else if String.eqb raw "HOME" then ARMED_HOME
            else if String.eqb raw "AWAY" then ARMED_AWAY
            else UNKNOWN).
Proof.
  intros H. rewrite status_of_raw, H.
  repeat match goal with
         | |- context [String.eqb raw ?k] =>
             destruct (String.eqb raw k); [eexists; repeat split|]
         end.
  eexists; repeat split.
Qed.

(** X14.  A status answer without the no-change marker, whose first
    [<system>] is followed by some text, one [<status>] element holding
    [raw], and some more text before [</system>]: when [raw] names no member
    of [Object.prototype], the callback hands the caller a value of
    [STATUSES] and stores it as [lastStatus]: the table's entry for
    [Ready], [NotReady], [Exit Delay], [HOME] and [AWAY], and [unknown] for
    anything else. *)
Theorem listed_status_is_resolved
        (w : World) response (body pre a raw b post : string) :
  ~ contains NOCNG_marker body ->
  find_first "<system>" body
  = Some (pre, a ++ "<status>" ++ raw ++ "</status>" ++ b ++ "</system>" ++ post) ->
  a <> "" -> raw <> "" -> b <> "" ->
  ~ contains "<status>" (raw ++ "</status>" ++ b ++ "</system>" ++ post) ->
  ~ contains "</status>" (b ++ "</system>" ++ post) ->
  mem_string raw Object_prototype = false ->
  exists s w',
    getStatus_callback (Ok (response, body)) w = (Called (Ok (JsString s)), w')
    /\ lastStatus (self w') = JsString s
    /\ is_status (JsString s) = true
    /\ s = (if String.eqb raw "Ready" then DISARMED
            else if String.eqb raw "NotReady" then DISARMED
            else if String.eqb raw "Exit Delay" then EXIT_DELAY
            else if String.eqb raw "HOME" then ARMED_HOME
            else if String.eqb raw "AWAY" then ARMED_AWAY
            else UNKNOWN).
Proof.
  intros Hn Hfind Ha Hraw Hb Hno1 Hno2 Hp.
  apply matches_lit_false in Hn. change (matches re_NOCNG body = false) in Hn.
  pose proof (@status_capture body pre a raw b post Hfind Ha Hraw Hb Hno1 Hno2) as Hm.
  destruct (@getStatus_callback_parses w response body raw Hn Hm) as (w' & E & Hl).
  destruct (@status_of_listed raw Hp) as (s & Hs & Hv & Heq).
  rewrite Hs in *. now exists s, w'.
Qed.

Lemma listed_status_is_resolved_witness :
  exists s w',
    getStatus_callback
      (Ok (mkResponse None,
           "<reply><index>12</index><system> <status>Exit Delay</status> </system></reply>"))
      (fresh [])
    = (Called (Ok (JsString s)), w')
    /\ lastStatus (self w') = JsString s
    /\ is_status (JsString s) = true
    /\ s = EXIT_DELAY.
Proof.
  apply (@listed_status_is_resolved (fresh []) (mkResponse None)
           "<reply><index>12</index><system> <status>Exit Delay</status> </system></reply>"
           "<reply><index>12</index>" " " "Exit Delay" " " "</reply>");
    try reflexivity; try discriminate; apply matches_lit_false; reflexivity.
Defined.

Lemma no_change_run (w : World) response body :
  matches re_NOCNG body = true ->
  getStatus_callback (Ok (response, body)) w
  = (Called (Ok (lastStatus (self w))),
     mkWorld (self w) (network w)
             ((trace w ++ debug_events (self w) (status_debug_lines body))
                ++ [Log no_change_line])%list).
Proof.
  intros H. unfold getStatus_callback, bind at 1. rewrite when_debug_run, H.
  reflexivity.
Qed.

(** Whenever the callback hands a status to the caller, that status is the
    one stored. *)
Lemma getStatus_callback_stores r (w w1 : World) v :
  getStatus_callback r w = (Called (Ok v), w1) -> lastStatus (self w1) = v.
Proof.
  destruct r as [e|[response body]]; [discriminate|].
  destruct (matches re_NOCNG body) eqn:Hn.
  - rewrite (@no_change_run w response body Hn). intros H; inversion H; now subst.
  - unfold getStatus_callback, bind at 1. rewrite when_debug_run, Hn.
    unfold bind at 1.
    destruct (js_match re_index body) as [g|].
    + unfold bind at 1, modify_self. rewrite debugLog_run.
      destruct (js_match re_status body); [|discriminate].
      unfold bind, modify_self, ret. intros H; inversion H; now subst.
    + unfold ret at 1.
      destruct (js_match re_status body); [|discriminate].
      unfold bind, modify_self, ret. intros H; inversion H; now subst.
Qed.

(** X15.  After the callback has handed the caller a status, an answer with
    the no-change marker makes it hand over the same status again, and the
    client stays as it was. *)
Theorem no_change_repeats_last_status
        r (w w1 : World) v response body :
  getStatus_callback r w = (Called (Ok v), w1) ->
  contains NOCNG_marker body ->
  fst (getStatus_callback (Ok (response, body)) w1) = Called (Ok v)
  /\ self (snd (getStatus_callback (Ok (response, body)) w1)) = self w1.
Proof.
  intros H Hb. apply contains_NOCNG in Hb.
  rewrite (@no_change_run w1 response body Hb). simpl.
  now rewrite (@getStatus_callback_stores r w w1 v H).
Qed.

Lemma no_change_repeats_last_status_witness :
  let first := Ok (mkResponse None, "<system> <status>HOME</status> </system>") in
  let w1 := snd (getStatus_callback first (fresh [])) in
  fst (getStatus_callback (Ok (mkResponse None, no_change_body)) w1)
  = Called (Ok (JsString ARMED_HOME))
  /\ self (snd (getStatus_callback (Ok (mkResponse None, no_change_body)) w1))
     = self w1.
Proof.
  intros first w1.
  apply (@no_change_repeats_last_status first (fresh []) w1 (JsString ARMED_HOME)
           (mkResponse None) no_change_body).
  - reflexivity.
  - now exists "<reply>", "</reply>".
Defined.

(** X16.  A status answer without the no-change marker and without any
    [<system>]: an exception escapes and the callback is not invoked;
    [lastStatus], the cookie and the fail-safe are as before, while the
    cursor has already moved to the answer's [<index>] value when it has
    one. *)
Theorem missing_fragment_raises (w : World) response body :
  ~ contains NOCNG_marker body ->
  ~ contains "<system>" body ->
  exists e w',
    getStatus_callback (Ok (response, body)) w = (Threw e, w')
    /\ lastStatus (self w') = lastStatus (self w)
    /\ same_session (self w) (self w')
    /\ getStatusIndex (self w')
       = match index_of_response (Ok (response, body)) with
         | Some i => JsString i
         | None => getStatusIndex (self w)
         end.
Proof.
  intros Hn Hs.
  pose proof (getStatus_callback_cursor (Ok (response, body)) w) as Hcur.
  assert (Hses : same_session
                   (self w) (self (snd (getStatus_callback (Ok (response, body)) w)))).
  { apply (@preserves_getStatus_callback same_session);
      try exact same_session_refl; try exact same_session_trans;
      intros; now split. }
  apply matches_lit_false in Hn. change (matches re_NOCNG body = false) in Hn.
  assert (Hm : js_match re_status body = None)
    by (unfold re_status; now apply js_match_without).
  assert (E : exists e w',
             getStatus_callback (Ok (response, body)) w = (Threw e, w')
             /\ lastStatus (self w') = lastStatus (self w)).
  { unfold getStatus_callback, bind at 1. rewrite when_debug_run, Hn.
    unfold bind at 1.
    destruct (js_match re_index body) as [g|].
    - unfold bind at 1, modify_self. rewrite debugLog_run, Hm.
      do 2 eexists; split; reflexivity.
    - unfold ret at 1. rewrite Hm. do 2 eexists; split; reflexivity. }
  destruct E as (e & w' & E & Hl). exists e, w'.
  rewrite E in Hcur, Hses. cbn [snd] in Hcur, Hses.
  repeat split; try assumption; apply Hses.
Qed.

Lemma missing_fragment_raises_witness :
  exists e w',
    getStatus_callback (Ok (mkResponse None, "<reply><index>9</index></reply>"))
                       (fresh [])
    = (Threw e, w')
    /\ lastStatus (self w') = JsUndefined
    /\ same_session (self (fresh [])) (self w')
    /\ getStatusIndex (self w') = JsString "9".
Proof.
  apply (@missing_fragment_raises (fresh []) (mkResponse None)
                                  "<reply><index>9</index></reply>");
    apply matches_lit_false; reflexivity.
Defined.

(** X17.  The cursor an answer hands over is the text between the first
    [<index>] of the body and the first [</index>] that follows at least one
    character later; the next request carries it as [curindex].  A body
    without any [<index>] leaves the cursor alone. *)
Theorem cursor_is_first_index (w : World) response body :
  ~ contains NOCNG_marker body ->
  let w' := snd (getStatus_callback (Ok (response, body)) w) in
  (forall pre x rest i post,
      find_first "<index>" body = Some (pre, String x rest) ->
      find_first "</index>" rest = Some (i, post) ->
      getStatusIndex (self w') = JsString (String x i)
      /\ curindex (getStatus_request (self w')) = JsString (String x i))
  /\ (~ contains "<index>" body ->
      getStatusIndex (self w') = getStatusIndex (self w)).
Proof.
  intros Hn w'. subst w'. rewrite getStatus_callback_cursor.
  apply matches_lit_false in Hn. change (matches re_NOCNG body = false) in Hn.
  cbn [index_of_response]. rewrite Hn. split.
  - intros pre x rest i post Hf1 Hf2.
    assert (Hm : js_match re_index body = Some (Some (String x i))).
    { apply (@js_match_at_first "<index>" _ body pre _ _ Hf1).
      change (match_at [Plus false AnyChar true; Lit "</index>"] (String x rest) None)
        with (plus_lazy AnyChar (fun txt s' => match_at [Lit "</index>"] s' (Some txt))
                        "" (String x rest)).
      rewrite plus_lazy_until, Hf2. reflexivity. }
    unfold curindex, getStatus_request, js_get. cbn [Request.form own_property].
    cbn [String.eqb Ascii.eqb Bool.eqb].
    pose proof (getStatus_callback_cursor (Ok (response, body)) w) as Hcur.
    cbn [index_of_response] in Hcur. rewrite Hn, Hm in Hcur.
    rewrite Hm, Hcur. split; reflexivity.
  - intros Hno. unfold re_index. now rewrite (js_match_without _ Hno).
Qed.

Lemma cursor_is_first_index_witness :
  let body := "<reply><index>12</index><index>13</index></reply>" in
  let w' := snd (getStatus_callback (Ok (mkResponse None, body)) (fresh [])) in
  getStatusIndex (self w') = JsString "12"
  /\ curindex (getStatus_request (self w')) = JsString "12".
Proof.
  intros body w'.
  apply (proj1 (@cursor_is_first_index (fresh []) (mkResponse None) body
                  ltac:(apply matches_lit_false; reflexivity))
               "<reply>" "1"%char "2</index><index>13</index></reply>" "2"
               "<index>13</index></reply>");
    reflexivity.
Defined.

(** ** Errors on the way *)

Lemma login_transport_error (w : World) error rest :
  failSafe (self w) = false ->
  nullish (cookie (self w)) = true ->
  network w = NetError error :: rest ->
  getAuthenticationCookie w
  = (Called (Err error), after_answer w (NetError error) rest).
Proof.
  intros Hf Hc Hn. run_login Hf Hc. rewrite Hn. unfold bind at 1.
  rewrite when_debug_run. unfold ret, after_answer. simpl.
  now rewrite <- !app_assoc.
Qed.

(** X18.  A login that fails in the transport surfaces as an error handed
    to the callback of [getStatus] and of [setStatus] (for a target the
    command map lists), never as an exception; the message names the
    transport's error, wrapped once by [authenticatedRequest] and once more
    by [getStatus]; the client is as it was, so the next call logs in
    again. *)
Theorem login_failure_surfaces (n : nat) (status : string) (w : World) error rest :
  failSafe (self w) = false ->
  nullish (cookie (self w)) = true ->
  network w = NetError error :: rest ->
  nullish (js_get stringMap status) = false ->
  let wrapped := new_Error ("Failed to get authentication cookie: "
                              ++ error_toString error) in
  exists w1 w2,
    getStatus n w
    = (Called (Err (new_Error ("Error getting raw status: " ++ error_toString wrapped))),
       w1)
    /\ self w1 = self w
    /\ setStatus n status w = (Called (Err wrapped), w2)
    /\ self w2 = self w.
Proof.
  intros Hf Hc Hn Hs wrapped.
  pose proof (@login_transport_error w error rest Hf Hc Hn) as Hl.
  exists (after_answer w (NetError error) rest).
  eexists. split; [|split; [reflexivity|]].
  - unfold getStatus, bind, get_self. cbv beta iota.
    rewrite (@without_timeout_result n (getStatus_request (self w)) w eq_refl), Hl.
    reflexivity.
  - unfold setStatus. rewrite Hs. unfold bind, get_self. cbv beta iota.
    rewrite (@without_timeout_result
               n (setStatus_request (self w) (js_get stringMap status)) w eq_refl), Hl.
    unfold setStatus_callback, bind. rewrite debugLog_run.
    split; reflexivity.
Qed.

Lemma login_failure_surfaces_witness :
  exists w1 w2,
    getStatus 1 (fresh [NetError (new_Error "ETIMEDOUT")])
    = (Called (Err (new_Error
         "Error getting raw status: Error: Failed to get authentication cookie: Error: ETIMEDOUT")),
       w1)
    /\ self w1 = self (fresh [NetError (new_Error "ETIMEDOUT")])
    /\ setStatus 1 ARMED_AWAY (fresh [NetError (new_Error "ETIMEDOUT")])
       = (Called (Err (new_Error "Failed to get authentication cookie: Error: ETIMEDOUT")),
          w2)
    /\ self w2 = self (fresh [NetError (new_Error "ETIMEDOUT")]).
Proof.
  apply (@login_failure_surfaces 1 ARMED_AWAY
           (fresh [NetError (new_Error "ETIMEDOUT")])
           (new_Error "ETIMEDOUT") []); reflexivity.
Defined.

Lemma failSafe_set_only_by_rejection_witness :
  failSafe (self (snd (getAuthenticationCookie (fresh [login_rejected])))) = true
  <-> nullish (cookie (self (fresh [login_rejected]))) = true
      /\ exists response body rest,
           network (fresh [login_rejected]) = NetOk response body :: rest
           /\ contains "NOT::" body.
Proof.
  apply (@failSafe_set_only_by_rejection (fresh [login_rejected])). reflexivity.
Defined.

(** ** What is logged *)

Lemma silent_refl (w : World) : silent w w.
Proof. intros _. split; [reflexivity|]. exists []. now rewrite app_nil_r. Qed.

Lemma silent_trans (a b c : World) : silent a b -> silent b c -> silent a c.
Proof.
  intros Hab Hbc Hd. destruct (Hab Hd) as (D1 & n1 & T1 & F1).
  assert (Hd' : truthy (debug (self b)) = false) by now rewrite D1.
  destruct (Hbc Hd') as (D2 & n2 & T2 & F2).
  split; [congruence|]. exists (n1 ++ n2)%list.
  split; [now rewrite T2, T1, app_assoc|]. apply Forall_app; now split.
Qed.

Lemma runs_silent_ret (A : Type) (a : A) : runs_silent (ret a).
Proof. intros w. apply silent_refl. Qed.

Lemma runs_silent_throw (A : Type) (e : JsException) : runs_silent (@throw A e).
Proof. intros w. apply silent_refl. Qed.

Lemma runs_silent_get_self : runs_silent get_self.
Proof. intros w. apply silent_refl. Qed.

Lemma runs_silent_waiting (A : Type) (ms : Z) :
  runs_silent (fun w => (@AwaitingTimer A ms, w)).
Proof. intros w. apply silent_refl. Qed.

Lemma runs_silent_emit (e : Event) : allowed_event e -> runs_silent (emit e).
Proof.
  intros He w _. split; [reflexivity|]. exists [e]. split; [reflexivity|].
  now constructor.
Qed.

Lemma runs_silent_request (config : Request.t) : runs_silent (request config).
Proof.
  intros w _. unfold request.
  destruct (network w); (split; [reflexivity|]); exists [Sent config];
    (split; [reflexivity|]); now constructor.
Qed.

Lemma runs_silent_modify (f : Client -> Client) :
  (forall c, debug (f c) = debug c) -> runs_silent (modify_self f).
Proof.
  intros Hf w _. split; [apply Hf|]. exists []. simpl. now rewrite app_nil_r.
Qed.

Lemma runs_silent_bind (A B : Type) (m : M A) (f : A -> M B) :
  runs_silent m -> (forall a, runs_silent (f a)) -> runs_silent (bind m f).
Proof.
  intros Hm Hf w. unfold bind. specialize (Hm w).
  destruct (m w) as [[a|e| |ms] w']; simpl in *; try assumption.
  eapply silent_trans; [exact Hm | apply Hf].
Qed.

(** With [debug] off, [debugLog] and the guarded log lines leave nothing. *)
Lemma runs_silent_when_debug (ls : list string) : runs_silent (when_debug ls).
Proof.
  intros w Hd. rewrite when_debug_run. unfold debug_events. rewrite Hd. simpl.
  split; [reflexivity|]. now exists [].
Qed.

Lemma runs_silent_debugLog (l : string) : runs_silent (debugLog l).
Proof.
  intros w Hd. rewrite debugLog_run. unfold debug_events. rewrite Hd. simpl.
  split; [reflexivity|]. now exists [].
Qed.

Ltac silence :=
  repeat first
    [ apply runs_silent_ret | apply runs_silent_throw | apply runs_silent_get_self
    | apply runs_silent_request | apply runs_silent_waiting
    | apply runs_silent_when_debug | apply runs_silent_debugLog
    | apply runs_silent_modify; reflexivity
    | apply runs_silent_emit; exact I
    | apply runs_silent_bind; [|intros ?]
    | match goal with
      | |- runs_silent (if ?b then _ else _) => destruct b
      | |- runs_silent (match ?x with _ => _ end) => destruct x
      end ].

Lemma runs_silent_getAuthenticationCookie : runs_silent getAuthenticationCookie.
Proof.
  unfold getAuthenticationCookie.
  apply runs_silent_bind; [apply runs_silent_get_self|]. intros s.
  destruct (failSafe s); [silence|].
  destruct (negb (nullish (cookie s))); [silence|].
  apply runs_silent_bind; [apply runs_silent_request|]. intros r.
  apply runs_silent_bind; [apply runs_silent_when_debug|]. intros _.
  destruct r as [error|response body]; [silence|].
  destruct (matches re_NOT body); [|silence].
  apply runs_silent_bind; [apply runs_silent_modify; reflexivity|]. intros _.
  apply runs_silent_bind; [|intros _; apply runs_silent_ret].
  apply runs_silent_emit. right. now exists body.
Qed.

Lemma runs_silent_authenticatedRequest (n : nat) (config : Request.t) :
  runs_silent (authenticatedRequest n config).
Proof.
  revert config; induction n as [|n IH]; intros config;
    rewrite authenticatedRequest_unfold;
    (apply runs_silent_bind;
     [ unfold authenticatedRequest_once;
       apply runs_silent_bind; [apply runs_silent_getAuthenticationCookie|];
       intros r; cbv zeta; silence
     | intros [r|ms config']; silence ]).
  apply IH.
Qed.

Lemma runs_silent_getStatus_callback r : runs_silent (getStatus_callback r).
Proof.
  unfold getStatus_callback. destruct r as [e|[response body]]; [silence|].
  apply runs_silent_bind; [apply runs_silent_when_debug|]. intros _.
  destruct (matches re_NOCNG body).
  - apply runs_silent_bind; [apply runs_silent_emit; now left|]. intros _. silence.
  - silence.
Qed.

Lemma runs_silent_getStatus (n : nat) : runs_silent (getStatus n).
Proof.
  unfold getStatus.
  apply runs_silent_bind; [apply runs_silent_get_self|]. intros s.
  apply runs_silent_bind; [apply runs_silent_authenticatedRequest|].
  intros r. apply runs_silent_getStatus_callback.
Qed.

Lemma runs_silent_setStatus (n : nat) (status : string) :
  runs_silent (setStatus n status).
Proof.
  unfold setStatus. destruct (nullish (js_get stringMap status)); [silence|].
  apply runs_silent_bind; [apply runs_silent_get_self|]. intros s.
  apply runs_silent_bind; [apply runs_silent_authenticatedRequest|].
  intros r. unfold setStatus_callback. silence.
Qed.

Lemma silent_perform_all (ops : list Operation) (w : World) :
  silent w (snd (perform_all ops w)).
Proof.
  revert w; induction ops as [|op ops IH]; intros w; simpl; [apply silent_refl|].
  assert (H1 : silent w (snd (perform op w))).
  { destruct op as [|n|n status]; simpl.
    - pose proof (runs_silent_getAuthenticationCookie w) as H.
      now destruct (getAuthenticationCookie w).
    - pose proof (runs_silent_getStatus n w) as H. now destruct (getStatus n w).
    - pose proof (runs_silent_setStatus n status w) as H.
      now destruct (setStatus n status w). }
  destruct (perform op w) as [o w1]. specialize (IH w1).
  destruct (perform_all ops w1) as [os w2]. simpl in *.
  eapply silent_trans; eassumption.
Qed.

Lemma silent_deliver rs (w : World) : silent w (deliver rs w).
Proof.
  revert w; induction rs as [|r rs IH]; intros w; simpl; [apply silent_refl|].
  eapply silent_trans; [apply runs_silent_getStatus_callback | apply IH].
Qed.

(** X20.  With [debug] off, whatever operations run and whatever answers
    [getStatus]'s callback is handed, every line that goes to [self.log] is
    the notice that the status has not changed or the reason of a rejected
    login; the lines [debugLog] and the guarded blocks would write (answers,
    bodies, the cookie) are not logged. *)
Theorem debug_off_logs_two_lines_only
        (ops : list Operation) (rs : list (Callback (Response * string)))
        (w : World) (line : string) :
  truthy (debug (self w)) = false ->
  In (Log line) (trace (deliver rs (snd (perform_all ops w)))) ->
  In (Log line) (trace w)
  \/ line = no_change_line
  \/ exists body, line = rejection_reason body.
Proof.
  intros Hd Hin.
  assert (H : silent w (deliver rs (snd (perform_all ops w))))
    by (eapply silent_trans; [apply silent_perform_all | apply silent_deliver]).
  destruct (H Hd) as (_ & new & Ht & Hall).
  rewrite Ht in Hin. apply in_app_or in Hin as [Hin|Hin]; [now left|].
  right. rewrite Forall_forall in Hall. exact (Hall _ Hin).
Qed.

Lemma debug_off_logs_two_lines_only_witness :
  In (Log (lockout_reason " 5 minutes")) (trace (fresh [login_rejected]))
  \/ lockout_reason " 5 minutes" = no_change_line
  \/ exists body, lockout_reason " 5 minutes" = rejection_reason body.
Proof.
  apply (@debug_off_logs_two_lines_only
           [OpGetStatus 1; OpSetStatus 1 ARMED_HOME] []
           (fresh [login_rejected]) (lockout_reason " 5 minutes")).
  - reflexivity.
  - vm_compute. tauto.
Defined.

(** ** The whole calls of [getStatus] *)

Example lockout_stops_at_line_separator :
  rejection_reason ("NOT:: time left: 5" ++ line_separator ++ "minutes")
  = lockout_reason " 5".
Proof. reflexivity. Qed.

Lemma getStatus_never_Ok (n : nat) (w : World) v :
  fst (getStatus n w) <> Called (Ok v).
Proof.
  destruct (@without_timeout n (getStatus_request (self w)) w eq_refl) as [Hno _].
  unfold getStatus, bind, get_self. cbv beta iota.
  destruct (authenticatedRequest n (getStatus_request (self w)) w)
    as [[[e|x]|e| |ms] w1]; simpl in *; try discriminate.
  now destruct (Hno x).
Qed.

Lemma getStatus_keeps_status (n : nat) (w : World) :
  same_status (self w) (self (snd (getStatus n w))).
Proof.
  destruct (@without_timeout n (getStatus_request (self w)) w eq_refl) as [Hno _].
  assert (Hs : same_status
                 (self w)
                 (self (snd (authenticatedRequest n (getStatus_request (self w)) w)))).
  { apply (@preserves_authenticatedRequest same_status);
      try exact same_status_refl; try exact same_status_trans; intros; now split. }
  unfold getStatus, bind, get_self. cbv beta iota.
  destruct (authenticatedRequest n (getStatus_request (self w)) w)
    as [[[e|x]|e| |ms] w1]; simpl in *; try exact Hs.
  now destruct (Hno x).
Qed.

Lemma perform_all_keeps_status (ops : list Operation) (w : World) :
  same_status (self w) (self (snd (perform_all ops w))).
Proof.
  revert w; induction ops as [|op ops IH]; intros w; simpl;
    [apply same_status_refl|].
  assert (H1 : same_status (self w) (self (snd (perform op w)))).
  { destruct op as [|n|n status]; simpl.
    - pose proof (@preserves_getAuthenticationCookie
                    same_status same_status_refl same_status_trans) as H.
      specialize (H (fun c => conj eq_refl eq_refl)
                    (fun v c => conj eq_refl eq_refl) w).
      now destruct (getAuthenticationCookie w).
    - pose proof (getStatus_keeps_status n w) as H. now destruct (getStatus n w).
    - pose proof (@preserves_setStatus
                    same_status same_status_refl same_status_trans) as H.
      specialize (H (fun c => conj eq_refl eq_refl)
                    (fun v c => conj eq_refl eq_refl) n status w).
      now destruct (setStatus n status w). }
  destruct (perform op w) as [o w1]. specialize (IH w1).
  destruct (perform_all ops w1) as [os w2]. simpl in *.
  eapply same_status_trans; eassumption.
Qed.

(** C7.  No answer with the no-change marker is ever handed on by
    [getStatus].  On a client built as the README builds it, and on one
    that holds a status, with the login succeeding and the no-change answer
    next in the script: the call raises the [TypeError] of line 219, its
    callback is not invoked, the answer is left unread, the login request is
    the only one sent, and the cookie field has changed.  On every client,
    against every script, [getStatus] hands no status to its callback. *)
Theorem no_change_answer_is_never_read :
  contains "[NOCNG]" no_change_body
  /\ contains NOCNG_marker no_change_body
  /\ fst (getStatus 3 (fresh [login_ok; no_change_answer]))
     = Threw (TypeError "self.config.timeout")
  /\ network (snd (getStatus 3 (fresh [login_ok; no_change_answer])))
     = [no_change_answer]
  /\ lastStatus client_at_home = JsString ARMED_HOME
  /\ fst (getStatus 3 (mkWorld client_at_home [login_ok; no_change_answer] []))
     = Threw (TypeError "self.config.timeout")
  /\ network (snd (getStatus 3 (mkWorld client_at_home [login_ok; no_change_answer] [])))
     = [no_change_answer]
  /\ sent (trace (snd (getStatus 3 (mkWorld client_at_home
                                             [login_ok; no_change_answer] []))))
     = [login_request client_at_home]
  /\ cookie (self (snd (getStatus 3 (mkWorld client_at_home
                                              [login_ok; no_change_answer] []))))
     <> cookie client_at_home
  /\ (forall n w v, fst (getStatus n w) <> Called (Ok v)).
Proof.
  split; [now exists "<reply><customStatus>", "</customStatus></reply>"|].
  split; [now exists "<reply>", "</reply>"|].
  repeat (split; [reflexivity|]).
  split; [discriminate|]. apply getStatus_never_Ok.
Qed.

(** C10.  No request of [getStatus] ever carries a cursor to the panel, and
    no answer ever moves the cursor.  On a built client, whatever calls of
    [getAuthenticationCookie], [getStatus] and [setStatus] have run against
    whatever script, the request [getStatus] builds next has [curindex]
    ["0"]; whatever [getStatus] sends is the login request, which has no
    [curindex].  With the login succeeding and two answers that hold
    [<index>12</index>] next in the script, two calls of [getStatus] both
    raise, leave both answers unread and send the login request only. *)
Theorem cursor_is_never_sent :
  (forall config net tr ops,
      curindex (getStatus_request
                  (self (snd (perform_all ops (mkWorld (PowerLink2 config) net tr)))))
      = JsString "0")
  /\ (forall n w,
         sent (trace (snd (getStatus n w))) = sent (trace w)
         \/ sent (trace (snd (getStatus n w)))
            = (sent (trace w) ++ [login_request (self w)])%list)
  /\ (forall s, curindex (login_request s) = JsUndefined)
  /\ js_match re_index
              "<reply><index>12</index><system> <status>Ready</status> </system></reply>"
     = Some (Some "12")
  /\ fst (perform_all [OpGetStatus 1; OpGetStatus 1]
                      (fresh [login_ok; status_ready; status_ready]))
     = [Raised (TypeError "self.config.timeout");
        Raised (TypeError "self.config.timeout")]
  /\ network (snd (perform_all [OpGetStatus 1; OpGetStatus 1]
                               (fresh [login_ok; status_ready; status_ready])))
     = [status_ready; status_ready]
  /\ sent (trace (snd (perform_all [OpGetStatus 1; OpGetStatus 1]
                                   (fresh [login_ok; status_ready; status_ready]))))
     = [login_request (PowerLink2 example_options)].
Proof.
  split.
  { intros config net tr ops.
    destruct (perform_all_keeps_status ops (mkWorld (PowerLink2 config) net tr))
      as [_ H].
    unfold curindex, getStatus_request, js_get. cbn [Request.form own_property].
    cbn [String.eqb Ascii.eqb Bool.eqb]. now rewrite H. }
  split; [apply getStatus_sends_no_status_request|].
  repeat split.
Qed.

(** ** The patterns against a plain search *)

Lemma find_first_complete (m s : string) :
  contains m s -> find_first m s <> None.
Proof.
  intros (pre & post & ->). induction pre as [|a pre IH].
  - change ("" ++ m ++ post) with (m ++ post).
    destruct (m ++ post) eqn:E; simpl; rewrite <- E, strip_prefix_app; discriminate.
  - change (String a pre ++ m ++ post) with (String a (pre ++ m ++ post)).
    cbn [find_first].
    destruct (strip_prefix m (String a (pre ++ m ++ post))); [discriminate|].
    destruct (find_first m (pre ++ m ++ post)) as [[p q]|]; [discriminate|].
    now elim IH.
Qed.

Lemma includes_matches (m s : string) : matches [Lit m] s = includes m s.
Proof.
  unfold matches, includes. induction s as [|a s IH]; simpl.
  - destruct (strip_prefix m ""); reflexivity.
  - destruct (strip_prefix m (String a s)); [reflexivity|].
    rewrite IH. now destruct (find_first m s) as [[p q]|].
Qed.

(** Two ways to cut one string: the longer head goes on into the other
    tail. *)
Lemma append_split (p q r t : string) :
  p ++ r = q ++ t -> String.length p <= String.length q -> exists e, r = e ++ t.
Proof.
  revert q; induction p as [|a p IH]; intros q H Hl.
  - exists q. exact H.
  - destruct q as [|b q]; [simpl in Hl; lia|].
    change (String a p ++ r) with (String a (p ++ r)) in H.
    change (String b q ++ t) with (String b (q ++ t)) in H.
    inversion H; subst. apply (IH q); [assumption | simpl in Hl; lia].
Qed.

Lemma append_length (a b : string) :
  String.length (a ++ b) = String.length a + String.length b.
Proof.
  induction a as [|x a IH]; [reflexivity|].
  change (String x a ++ b) with (String x (a ++ b)). simpl. now rewrite IH.
Qed.

(** Where the index pattern matches, an [</index>] follows the opening tag
    and one character. *)
Lemma index_match_shape (t : string) g :
  match_at re_index t None = Some g ->
  exists x i post, t = "<index>" ++ String x (i ++ "</index>" ++ post).
Proof.
  change (match_at re_index t None)
    with (match strip_prefix "<index>" t with
          | Some rest =>
              plus_lazy AnyChar (fun txt s' => match_at [Lit "</index>"] s' (Some txt))
                        "" rest
          | None => None
          end).
  destruct (strip_prefix "<index>" t) as [rest|] eqn:E; [|discriminate].
  apply strip_prefix_Some in E. subst t.
  destruct rest as [|x rest]; [discriminate|].
  rewrite plus_lazy_until.
  destruct (find_first "</index>" rest) as [[i post]|] eqn:F; [|discriminate].
  intros _. apply find_first_Some in F. subst rest. now exists x, i, post.
Qed.

(** After an opening tag that no [</index>] follows one character later,
    the pattern matches nowhere further on. *)
Lemma index_no_later_match (rest : string) :
  match rest with
  | EmptyString => True
  | String _ rest' => find_first "</index>" rest' = None
  end ->
  js_match re_index ("index>" ++ rest) = None.
Proof.
  intros H. destruct (js_match re_index ("index>" ++ rest)) as [g|] eqn:E;
    [|reflexivity].
  apply js_match_suffix in E as (pre & t & Hs & Hm).
  apply index_match_shape in Hm as (x & i & post & ->).
  assert (Hs' : "index>" ++ rest
                = (pre ++ "<index>" ++ String x "") ++ i ++ "</index>" ++ post).
  { rewrite Hs. rewrite !append_assoc. reflexivity. }
  destruct rest as [|y rest'].
  - apply (f_equal String.length) in Hs'. rewrite !append_length in Hs'. simpl in Hs'. lia.
  - change ("index>" ++ String y rest') with (("index>" ++ String y "") ++ rest') in Hs'.
    apply append_split in Hs' as (e & He);
      [|rewrite !append_length; simpl; lia].
    elim (@find_first_complete "</index>" rest'); [|exact H].
    exists (e ++ i), post. rewrite He. now rewrite !append_assoc.
Qed.

(** The index pattern finds what a plain search for the two tags finds. *)
Lemma index_pattern_is_search (s : string) :
  js_match re_index s
  = match index_by_search s with Some i => Some (Some i) | None => None end.
Proof.
  induction s as [|a s IH]; [reflexivity|].
  unfold index_by_search in *. cbn [js_match find_first].
  change (match_at re_index (String a s) None)
    with (match strip_prefix "<index>" (String a s) with
          | Some rest =>
              plus_lazy AnyChar (fun txt s' => match_at [Lit "</index>"] s' (Some txt))
                        "" rest
          | None => None
          end).
  destruct (strip_prefix "<index>" (String a s)) as [rest|] eqn:E.
  - destruct rest as [|x rest'].
    + cbn [plus_lazy].
      apply strip_prefix_Some in E.
      change ("<index>" ++ "") with (String "<"%char ("index>" ++ "")) in E.
      inversion E; subst. now apply index_no_later_match.
    + rewrite plus_lazy_until.
      destruct (find_first "</index>" rest') as [[i post]|] eqn:F; [reflexivity|].
      apply strip_prefix_Some in E.
      change ("<index>" ++ String x rest')
        with (String "<"%char ("index>" ++ String x rest')) in E.
      inversion E; subst. now apply index_no_later_match.
  - rewrite IH. destruct (find_first "<index>" s) as [[pre post]|]; reflexivity.
Qed.

Lemma handed_index_is_index_of_response r : index_of_response r = handed_index r.
Proof.
  destruct r as [e|[response body]]; [reflexivity|].
  unfold index_of_response, handed_index, re_NOCNG.
  rewrite includes_matches. fold NOCNG_marker.
  destruct (includes NOCNG_marker body); [reflexivity|].
  rewrite index_pattern_is_search. now destruct (index_by_search body).
Qed.

Lemma last_handed_index_is_most_recent rs :
  most_recent_index rs = last_handed_index rs.
Proof.
  induction rs as [|r rs IH]; [reflexivity|]. simpl.
  now rewrite IH, handed_index_is_index_of_response.
Qed.

(** X22.  The callback [getStatus] hands to [authenticatedRequest], over
    any sequence of answers handed to it on a client as built: the request
    [getStatus] builds next carries as [curindex] the text between the first
    [<index>] and the first [</index>] one character or more later, taken
    from the most recent answer that came without an error, did not contain
    [<customStatus>[NOCNG]</customStatus>] and held such a pair; and ["0"]
    when there has been none.  An answer that holds the marker leaves the
    cursor alone even when it holds an [<index>] too. *)
Theorem cursor_follows_delivered_answers
        (config : Options.t) net tr (rs : list (Callback (Response * string))) :
  curindex (getStatus_request (self (deliver rs (mkWorld (PowerLink2 config) net tr))))
  = JsString (match last_handed_index rs with Some i => i | None => "0" end).
Proof.
  rewrite cursor_follows_parsed_answers. now rewrite last_handed_index_is_most_recent.
Qed.

Example cursor_follows_delivered_answers_example :
  last_handed_index
    [ Ok (mkResponse None, "<reply><index>5</index></reply>");
      Err (new_Error "ETIMEDOUT");
      Ok (mkResponse None, no_change_with_index) ]
  = Some "5".
Proof. reflexivity. Qed.
